(** * Document retrieval extension of the BioImage.IO chatbot

    A shallow embedding of
    [bioimageio_chatbot/chatbot_extensions/docs_extension.py]:
    the schema advertiser [get_schema] and the multi-collection search
    [run_extension], with the properties the specification states about
    them; and of the pure parts of
    [bioimageio_chatbot/user_APIs/cellpose/image_processing.py] (module
    [Cellpose]): the axes validator, the data URL helpers and the format
    handling of [ImageProcessor].

    Python values are modelled as follows.
    - [int] is [Z]; [str] is [string]; [None]-or-string is [option string].
    - [float] is the IEEE-754 value type [spec_float] of the standard
      library, compared with [SFltb] and [SFleb] (so NaN compares false
      with everything, as in Python).
    - [docs_store_dict] is a list of (key, store) pairs in the insertion
      order Python iterates a dict in; the dict built at line 51 is a
      [gmap] (only looked up).
    - The request object is mutable state; [print], the store calls and the
      [await] are recorded as events; exceptions are results. *)

From Stdlib Require Import ZArith Lia Sorted Permutation.
From Stdlib Require Import Floats.SpecFloat.
From stdpp Require Import base option list strings gmap.

Open Scope string_scope.
Open Scope list_scope.
Open Scope Z_scope.

(** ** Floats as far as the code uses them: comparison only *)

Definition float := spec_float.

(** Python [a < b] and [a >= b] on floats. *)
Definition float_lt (a b : float) : bool := SFltb a b.
Definition float_ge (a b : float) : bool := SFleb b a.
Definition float_eq (a b : float) : bool := SFeqb a b.

Definition is_nan (f : float) : bool :=
  match f with S754_nan => true | _ => false end.

(** ** Data model *)

(** [Dict[str, Any]] of a document; only passed through. *)
Definition Metadata := list (string * string).

(** A document of the vector store: [page_content] and [metadata]. *)
Module Document.
Record t := mk { page_content : string; metadata : Metadata }.
End Document.

(** class DocWithScore (lines 11-20). *)
Record DocWithScore := mkDocWithScore {
  doc : string;
  score : float;
  metadata : Metadata;
  base_url : option string
}.

(** class DocumentRetrievalInput (lines 22-30): the request object. *)
Record DocumentRetrievalInput := mkDocumentRetrievalInput {
  query : string;
  top_k : Z
}.

(** An entry of [get_manifest()["collections"]]; [base_url] is what
    [collection.get("base_url")] yields ([None] when absent). *)
Module Manifest.
Record collection := mk {
  id : string;
  name : string;
  description : string;
  base_url : option string
}.
End Manifest.

(** Exceptions that can leave [run_extension]. A store may raise any of
    them; [UpstreamError] stands for the store's own failures. *)
Inductive exn :=
| KeyError (key : string)
| IndexError
| NameError (var : string)
| UpstreamError (msg : string).

(** What awaiting one search call yields. *)
Inductive outcome :=
| Returns (results_with_scores : list (Document.t * float))
| Raises (e : exn).

(** A collection's vector store: its one asynchronous operation, as a
    function of the arguments (deterministic store behaviour). *)
Record docs_store := mkStore {
  asimilarity_search_with_relevance_scores : string -> Z -> outcome
}.

(** The coroutine object a call at line 55 creates: nothing has run yet;
    it is the pending outcome, delivered when the coroutine is awaited. *)
Definition coroutine := outcome.

(** Observable events, in program order. *)
Inductive event :=
| EvPrint (line : string)
| EvSearch (channel_id : string) (q : string) (k : Z)
| EvGather (n : nat)
| EvPrintRetrieved (d0 d1 d2 : string * float).

(** ** State and exceptions *)

Record world := mkWorld {
  req : DocumentRetrievalInput;
  trace : list event
}.

Inductive result (A : Type) :=
| Ok (a : A)
| Raise (e : exn).
Arguments Ok {A} a.
Arguments Raise {A} e.

Definition M (A : Type) : Type := world -> result A * world.

#[global] Instance M_ret : MRet M := fun A a w => (Ok a, w).
#[global] Instance M_bind : MBind M := fun A B f m w =>
  match m w with
  | (Ok a, w') => f a w'
  | (Raise e, w') => (Raise e, w')
  end.

Definition raise {A} (e : exn) : M A := fun w => (Raise e, w).

Definition get_req : M DocumentRetrievalInput := fun w => (Ok (req w), w).
Definition set_top_k (k : Z) : M unit :=
  fun w => (Ok tt, mkWorld (mkDocumentRetrievalInput (query (req w)) k) (trace w)).
Definition emit (e : event) : M unit :=
  fun w => (Ok tt, mkWorld (req w) (trace w ++ [e])).

Fixpoint mapM {A B} (f : A -> M B) (l : list A) : M (list B) :=
  match l with
  | [] => mret []
  | x :: xs => y ← f x; ys ← mapM f xs; mret (y :: ys)
  end.

(** ** Python built-ins the code uses *)

(** [max(1, min(top_k, 15))] on ints. *)
Definition clamp_top_k (k : Z) : Z := Z.max 1 (Z.min k 15).

(** [l[:k]] for any int [k]. *)
Definition slice_to {A} (k : Z) (l : list A) : list A :=
  if 0 <=? k then take (Z.to_nat k) l
  else take (Z.to_nat (Z.of_nat (length l) + k)) l.

(** [l[i]] for a natural index. *)
Definition getitem {A} (l : list A) (i : nat) : M A :=
  match l !! i with
  | Some x => mret x
  | None => raise IndexError
  end.

(** [sorted(l, key=lambda x: x.score, reverse=True)]: a stable sort into
    descending key order that compares keys with [<] only. An element moves
    behind a later one only when its key is strictly smaller. When no key
    is a NaN the keys are totally preordered and every stable sort yields
    this list. With NaN keys the arrangement CPython produces depends on
    its algorithm and can differ from this one; what is proved about the
    order of a result is proved for keys without NaN, or for lists that
    every arrangement leaves unsorted. *)
Fixpoint insert_desc (x : DocWithScore) (l : list DocWithScore) : list DocWithScore :=
  match l with
  | [] => [x]
  | y :: ys => if float_lt (score x) (score y) then y :: insert_desc x ys
               else x :: y :: ys
  end.

Definition sorted_by_score_reverse (l : list DocWithScore) : list DocWithScore :=
  foldr insert_desc [] l.

(** [s[:20]] on a string. *)
Definition str_prefix (n : nat) (s : string) : string := String.substring 0 n s.

(** ["\n".join(lines)] *)
Definition newline : string := String (Ascii.ascii_of_nat 10) EmptyString.

Fixpoint join (sep : string) (l : list string) : string :=
  match l with
  | [] => EmptyString
  | [x] => x
  | x :: xs => x +:+ sep +:+ join sep xs
  end.

(** ** get_schema (lines 32-41) *)

(** The class object [DocumentRetrievalInput] as far as [get_schema] is
    concerned: its docstring, which the code assigns, and whatever the
    validation library keeps on the class (schemas it has generated, for
    instance), which the code never touches itself. It is global state
    shared by all callers. *)
Record class_state (Lib : Type) := mkClass {
  class_doc : string;
  class_private : Lib
}.
Arguments mkClass {Lib} _ _.
Arguments class_doc {Lib} _.
Arguments class_private {Lib} _.

Definition channel_line (channel : Manifest.collection) : string :=
  "- " +:+ Manifest.name channel +:+ ": " +:+ Manifest.description channel.

Section GetSchema.

(** [DocumentRetrievalInput.schema()] belongs to the validation library:
    given the class as it is at the call, it yields a schema and the
    library's own data on the class afterwards. Nothing is assumed about
    it here. *)
Variable Schema : Type.
Variable Lib : Type.
Variable schema_method : class_state Lib -> Schema * Lib.

Definition get_schema (channels : list Manifest.collection) (c : class_state Lib)
  : Schema * class_state Lib :=
  let channel_info := join newline (map channel_line channels) in
  let c' := mkClass
    ("Searching knowledge base for relevant documents. The available documentations are:"
       +:+ newline +:+ channel_info)
    (class_private c) in
  let '(s, p) := schema_method c' in
  (s, mkClass (class_doc c') p).

End GetSchema.

(** The request schema as the framework receives it. *)
Record field_schema := mkField {
  field_name : string;
  field_type : string;
  field_default : option Z
}.

Record request_schema := mkSchema {
  schema_description : string;
  schema_properties : list field_schema;
  schema_required : list string
}.

(** Modelled from the spec: [DocumentRetrievalInput.schema()], the schema
    generation of the validation library, is not part of the sources. The
    specification (4.2) has the enumeration of collections embedded "into
    the documentation string of the SearchRequest shape exposed to the
    calling framework", "regenerated per invocation (not cached)", in a
    schema that includes [query] (required string) and [top_k] (optional
    integer, default 3). The library keeps nothing on the class. *)
Definition regenerated_schema (c : class_state unit) : request_schema * unit :=
  (mkSchema (class_doc c)
     [ mkField "query" "string" None; mkField "top_k" "integer" (Some 3) ]
     [ "query" ],
   tt).

(** ** run_extension (lines 44-76) *)

(** The dict comprehension of line 51: a later entry with the same id
    replaces an earlier one. *)
Definition collection_info_dict (collections : list Manifest.collection)
  : gmap string Manifest.collection :=
  foldl (fun m collection => <[Manifest.id collection := collection]> m) ∅ collections.

(** [d[key]] on a dict. *)
Definition dict_getitem {V} (d : gmap string V) (key : string) : M V :=
  match d !! key with
  | Some v => mret v
  | None => raise (KeyError key)
  end.

(** The locals of [run_extension] that the loop assigns and later code
    reads. A local that was never assigned is unbound ([None]). *)
Record locals := mkLocals {
  channel_results : list coroutine;
  base_url_var : option (option string)
}.

Definition read_local {A} (var : string) (v : option A) : M A :=
  match v with
  | Some a => mret a
  | None => raise (NameError var)
  end.

(** Lines 50-57, one iteration. The call at line 55 only creates the
    coroutine; its arguments are evaluated here. *)
Definition loop_body (collections : list Manifest.collection)
    (vars : locals) (item : string * docs_store) : M locals :=
  let '(channel_id, docs_store) := item in
  collection_info ← dict_getitem (collection_info_dict collections) channel_id;
  let base_url := Manifest.base_url collection_info in
  r ← get_req;
  emit (EvPrint ("Retrieving documents from database " +:+ channel_id
                   +:+ " with query: " +:+ query r));;
  r ← get_req;
  emit (EvSearch channel_id (query r) (top_k r));;
  mret (mkLocals
          (channel_results vars ++
             [asimilarity_search_with_relevance_scores docs_store (query r) (top_k r)])
          (Some base_url)).

Fixpoint for_each {A S} (body : S -> A -> M S) (s : S) (l : list A) : M S :=
  match l with
  | [] => mret s
  | x :: xs => s' ← body s x; for_each body s' xs
  end.

(** [await asyncio.gather] over the awaitables [aws]. All of them run;
    the first one to finish with an exception makes the [await] raise it,
    otherwise the results come back in the order of [aws]. Which task
    finishes first is the event loop's business: [sched] lists task
    indices in completion order (tasks it does not list finish afterwards,
    in index order). *)
Fixpoint first_exception (order : list nat) (aws : list coroutine) : option exn :=
  match order with
  | [] => None
  | i :: rest =>
      match aws !! i with
      | Some (Raises e) => Some e
      | _ => first_exception rest aws
      end
  end.

Definition returned (o : outcome) : option (list (Document.t * float)) :=
  match o with
  | Returns r => Some r
  | Raises _ => None
  end.

Definition gather (sched : list nat) (aws : list coroutine)
  : M (list (list (Document.t * float))) :=
  emit (EvGather (length aws));;
  match first_exception (sched ++ seq 0 (length aws)) aws with
  | Some e => raise e
  | None => mret (omap returned aws)
  end.

(** Lines 63-65, one element of the comprehension. *)
Definition make_doc (vars : locals) (p : Document.t * float) : M DocWithScore :=
  let '(d, score) := p in
  base_url ← read_local "base_url" (base_url_var vars);
  mret (mkDocWithScore (Document.page_content d) score (Document.metadata d) base_url).

Definition retrieved_line (d : DocWithScore) : string * float :=
  (str_prefix 20 (doc d) +:+ "...", score d).

(** Lines 72-75. *)
Definition print_retrieved (docs_with_score : list DocWithScore) : M unit :=
  if (0 <? length docs_with_score)%nat then
    d0 ← getitem docs_with_score 0;
    d1 ← getitem docs_with_score 1;
    d2 ← getitem docs_with_score 2;
    emit (EvPrintRetrieved (retrieved_line d0) (retrieved_line d1) (retrieved_line d2))
  else mret tt.

(** [run_extension(docs_store_dict, req)]; [req] is the request object in
    the world, [collections] is [get_manifest()["collections"]]. *)
Definition run_extension (collections : list Manifest.collection) (sched : list nat)
    (docs_store_dict : list (string * docs_store)) : M (list DocWithScore) :=
  r ← get_req;
  set_top_k (clamp_top_k (top_k r));;
  vars ← for_each (loop_body collections) (mkLocals [] None) docs_store_dict;
  channel_results ← gather sched (channel_results vars);
  docs_with_score ← mapM (make_doc vars) (concat channel_results);
  r ← get_req;
  let docs_with_score := slice_to (top_k r) (sorted_by_score_reverse docs_with_score) in
  print_retrieved docs_with_score;;
  mret docs_with_score.

(** A call with a request object [r], starting from an empty event log. *)
Definition call (collections : list Manifest.collection) (sched : list nat)
    (docs_store_dict : list (string * docs_store)) (r : DocumentRetrievalInput)
  : result (list DocWithScore) * world :=
  run_extension collections sched docs_store_dict (mkWorld r []).

(** ** Specification vocabulary *)

(** The request as [run_extension] leaves it after line 48. *)
Definition clamped (r : DocumentRetrievalInput) : DocumentRetrievalInput :=
  mkDocumentRetrievalInput (query r) (clamp_top_k (top_k r)).

(** The pending search of one dict item, for request [r]. *)
Definition pending (r : DocumentRetrievalInput) (item : string * docs_store) : coroutine :=
  asimilarity_search_with_relevance_scores item.2 (query r) (top_k r).

(** The events of one loop iteration. *)
Definition issue_events (r : DocumentRetrievalInput) (item : string * docs_store)
  : list event :=
  [ EvPrint ("Retrieving documents from database " +:+ item.1
               +:+ " with query: " +:+ query r);
    EvSearch item.1 (query r) (top_k r) ].

(** Every key of the store dict has an entry in the manifest. *)
Definition registered (collections : list Manifest.collection)
    (items : list (string * docs_store)) : bool :=
  forallb (fun item => match collection_info_dict collections !! item.1 with
                       | Some _ => true
                       | None => false
                       end) items.

(** The items the loop gets through: those before the first key that has
    no manifest entry. *)
Fixpoint issued (collections : list Manifest.collection)
    (items : list (string * docs_store)) : list (string * docs_store) :=
  match items with
  | [] => []
  | item :: rest =>
      match collection_info_dict collections !! item.1 with
      | Some _ => item :: issued collections rest
      | None => []
      end
  end.

(** The value of the local [base_url] after the loop ran over [items]. *)
Definition bound_base_url (collections : list Manifest.collection)
    (v : option (option string)) (items : list (string * docs_store))
  : option (option string) :=
  foldl (fun v item => match collection_info_dict collections !! item.1 with
                       | Some c => Some (Manifest.base_url c)
                       | None => v
                       end) v items.

(** The search calls recorded in an event log. *)
Definition searches (t : list event) : list (string * string * Z) :=
  omap (fun e => match e with
                 | EvSearch c q k => Some (c, q, k)
                 | _ => None
                 end) t.

Definition gathers (t : list event) : list nat :=
  omap (fun e => match e with EvGather n => Some n | _ => None end) t.

(** A candidate: a retrieved pair tagged with a base URL. *)
Definition tag (b : option string) (p : Document.t * float) : DocWithScore :=
  mkDocWithScore (Document.page_content p.1) p.2 (Document.metadata p.1) b.

Definition score_ge (a b : DocWithScore) : Prop := float_ge (score a) (score b) = true.

Definition same_key (s : float) (d : DocWithScore) : bool := float_eq (score d) s.

(** No store returns a NaN score for the request [r]. *)
Definition nan_free (r : DocumentRetrievalInput) (items : list (string * docs_store)) : bool :=
  forallb (fun item => match pending r item with
                       | Returns l => forallb (fun p => negb (is_nan p.2)) l
                       | Raises _ => true
                       end) items.

(** The value a call produced, if it produced one. *)
Definition value {A} (x : result A) : option A :=
  match x with
  | Ok a => Some a
  | Raise _ => None
  end.

(** All candidates in discovery order, tagged with [b]. *)
Definition candidates (b : option string) (results : list (list (Document.t * float)))
  : list DocWithScore :=
  map (tag b) (concat results).

(** The base URL all candidates are tagged with: the value of the local
    [base_url] when the comprehension runs. *)
Definition tagging_base_url (collections : list Manifest.collection)
    (items : list (string * docs_store)) : option string :=
  default None (bound_base_url collections None items).

(** The list bound to [docs_with_score] at line 70. *)
Definition ranked (collections : list Manifest.collection)
    (items : list (string * docs_store)) (r : DocumentRetrievalInput)
  : list DocWithScore :=
  take (Z.to_nat (top_k (clamped r)))
    (sorted_by_score_reverse
       (candidates (tagging_base_url collections items)
          (omap returned (map (pending (clamped r)) items)))).

(** No score of the list is a NaN. *)
Definition numeric (l : list DocWithScore) : Prop :=
  Forall (fun d => is_nan (score d) = false) l.

(** The first key of the store dict that has no manifest entry. *)
Fixpoint first_unregistered (collections : list Manifest.collection)
    (items : list (string * docs_store)) : option string :=
  match items with
  | [] => None
  | item :: rest =>
      match collection_info_dict collections !! item.1 with
      | Some _ => first_unregistered collections rest
      | None => Some item.1
      end
  end.

(** The number of candidates the stores return for request [r]. *)
Definition candidate_count (r : DocumentRetrievalInput)
    (items : list (string * docs_store)) : nat :=
  length (concat (omap returned (map (pending r) items))).

(** ** Concrete fixtures *)

Definition f0_9 : float := S754_finite false 8106479329266893 (-53).
Definition f0_8 : float := S754_finite false 7205759403792794 (-53).
Definition f0_5 : float := S754_finite false 4503599627370496 (-53).

Definition d1 := Document.mk "d1" [].
Definition d2 := Document.mk "d2" [].
Definition d3 := Document.mk "d3" [].

Definition const_store (o : outcome) : docs_store := mkStore (fun _ _ => o).

Definition manifest_AB : list Manifest.collection :=
  [ Manifest.mk "A" "Collection A" "first collection" (Some "https://a.example/");
    Manifest.mk "B" "Collection B" "second collection" (Some "https://b.example/") ].

Definition stores_AB : list (string * docs_store) :=
  [ ("A", const_store (Returns [(d1, f0_9); (d2, f0_5)]));
    ("B", const_store (Returns [(d3, f0_8)])) ].


Definition stores_AB_B_fails : list (string * docs_store) :=
  [ ("A", const_store (Returns [(d1, f0_9); (d2, f0_5)]));
    ("B", const_store (Raises (UpstreamError "index unavailable"))) ].

Definition stores_nan : list (string * docs_store) :=
  [ ("A", const_store (Returns [(d1, f0_9); (d2, S754_nan); (d3, f0_5)])) ].

Definition stores_A_one : list (string * docs_store) :=
  [ ("A", const_store (Returns [(d1, f0_9)])) ].

Definition stores_A_empty : list (string * docs_store) :=
  [ ("A", const_store (Returns [])) ].

Definition f0_7 : float := S754_finite false 6305039478318694 (-53).
Definition d4 := Document.mk "d4" [].

Definition stores_AB_four : list (string * docs_store) :=
  [ ("A", const_store (Returns [(d1, f0_9); (d2, f0_5)]));
    ("B", const_store (Returns [(d3, f0_8); (d4, f0_7)])) ].

Definition stores_AC : list (string * docs_store) :=
  [ ("A", const_store (Returns [(d1, f0_9)]));
    ("C", const_store (Returns [(d3, f0_8)]));
    ("B", const_store (Returns [(d2, f0_5)])) ].

(** ** user_APIs/cellpose/image_processing.py *)

Module Cellpose.

Import Stdlib.Strings.Ascii.

(** Why a [ValueError] was raised: the five messages of the validator
    (lines 41, 43, 46, 48, 50), a tuple unpacking with the wrong number of
    values (line 108), and an [index] that finds nothing. *)
Inductive value_error :=
| AxesLengthMismatch
| TooManyChannels
| UnknownAxisLabel
| TBeforeOthers
| RepeatedAxisLabel
| NotEnoughValues (got : nat)
| TooManyValues
| NotFound.

Inductive error :=
| ValueError (why : value_error)
| IndexError
| AssertionError
| AttributeError
| LibraryError (what : string).

(** A value or a raised exception. *)
Inductive res (A : Type) :=
| Val (a : A)
| Err (e : error).
Arguments Val {A} a.
Arguments Err {A} e.

#[global] Instance res_ret : MRet res := fun A a => Val a.
#[global] Instance res_bind : MBind res := fun A B f m =>
  match m with
  | Val a => f a
  | Err e => Err e
  end.

(** ** Built-ins on lists and strings *)

(** [x in l] on a list of strings. *)
Definition contains (l : list string) (x : string) : bool :=
  existsb (String.eqb x) l.

(** [l.index(x)]: the first position of [x], [ValueError] when absent. *)
Fixpoint list_index (x : string) (l : list string) : res nat :=
  match l with
  | [] => Err (ValueError NotFound)
  | y :: ys => if String.eqb x y then Val 0%nat
               else i ← list_index x ys; Val (S i)
  end.

(** [l.count(x)] *)
Definition count (x : string) (l : list string) : nat :=
  length (List.filter (String.eqb x) l).

(** [l[i]] for a natural index. *)
Definition item {A} (l : list A) (i : nat) : res A :=
  match l !! i with
  | Some x => Val x
  | None => Err IndexError
  end.

(** [s.split(sep)] for a one-character separator. *)
Fixpoint split (sep : ascii) (s : string) : list string :=
  match s with
  | EmptyString => [EmptyString]
  | String c rest =>
      if Stdlib.Strings.Ascii.eqb c sep then EmptyString :: split sep rest
      else match split sep rest with
           | [] => [String c EmptyString]
           | piece :: pieces => String c piece :: pieces
           end
  end.

(** The number of times a character occurs in a string. *)
Fixpoint occurrences (c : ascii) (s : string) : nat :=
  match s with
  | EmptyString => 0
  | String d rest =>
      ((if Stdlib.Strings.Ascii.eqb d c then 1 else 0) + occurrences c rest)%nat
  end.

(** [s.lower()]; strings are taken to be ASCII. *)
Definition lower_char (c : ascii) : ascii :=
  let n := nat_of_ascii c in
  if ((65 <=? n) && (n <=? 90))%nat then ascii_of_nat (n + 32) else c.

Fixpoint lower (s : string) : string :=
  match s with
  | EmptyString => EmptyString
  | String c rest => String (lower_char c) (lower rest)
  end.

(** [sorted(s)] on a string: its characters in code-point order. *)
Fixpoint insert_char (c : ascii) (l : list ascii) : list ascii :=
  match l with
  | [] => [c]
  | d :: ds => if (nat_of_ascii c <? nat_of_ascii d)%nat then c :: d :: ds
               else d :: insert_char c ds
  end.

Definition sorted_chars (s : string) : list ascii :=
  foldr insert_char [] (String.list_ascii_of_string s).

(** [s.index(c)] for a character: first position, [ValueError] when
    absent. *)
Fixpoint str_index (c : ascii) (s : string) : res nat :=
  match s with
  | EmptyString => Err (ValueError NotFound)
  | String d rest => if Stdlib.Strings.Ascii.eqb c d then Val 0%nat
                     else i ← str_index c rest; Val (S i)
  end.

(** [s.endswith(suffix)] *)
Definition endswith (s suffix : string) : bool :=
  let n := String.length s in
  let m := String.length suffix in
  (m <=? n)%nat && String.eqb (String.substring (n - m) m s) suffix.

(** ** LabeledImage.validate_axes_length (lines 37-51) *)

Record AxisGuess := mkAxisGuess { labels : list string }.

(** Lines 39-43: the checks made when [values] has the key ['shape'];
    [shape] is [values['shape']], or [None] when the key is absent (the
    shape did not validate). *)
Definition check_shape (axis_labels : list string) (shape : option (list Z)) : res unit :=
  match shape with
  | Some shape =>
      (if negb (length axis_labels =? length shape)%nat
       then Err (ValueError AxesLengthMismatch) else Val tt);;
      if contains axis_labels "c" then
        i ← list_index "c" axis_labels;
        d ← item shape i;
        if d >? 5 then Err (ValueError TooManyChannels) else Val tt
      else Val tt
  | None => Val tt
  end.

(** [v] is the [axes] value being validated. *)
Definition validate_axes_length (v : AxisGuess) (shape : option (list Z)) : res AxisGuess :=
  check_shape (labels v) shape;;
  (if forallb (contains ["b"; "x"; "y"; "z"; "c"; "t"]) (labels v)
   then Val tt else Err (ValueError UnknownAxisLabel));;
  (if contains (labels v) "t"
      && existsb (fun c => negb (contains (labels v) c)) ["z"; "b"; "x"; "y"]
   then Err (ValueError TBeforeOthers) else Val tt);;
  (if existsb (fun c => (1 <? count c (labels v))%nat) (labels v)
   then Err (ValueError RepeatedAxisLabel) else Val tt);;
  Val v.

(** ** decode_base64 and encode_base64 (lines 107-118) *)

Definition bytes := list Byte.byte.

(** [base64.b64encode(data).decode('utf-8')]: the standard alphabet, three
    bytes to four characters, padded with [=]. *)
Definition b64_alphabet : list ascii :=
  String.list_ascii_of_string
    "ABCDEFGHIJKLMNOPQRSTUVWXYZabcdefghijklmnopqrstuvwxyz0123456789+/".

Definition b64_digit (n : N) : ascii :=
  nth (N.to_nat n) b64_alphabet "="%char.

Fixpoint b64encode (data : bytes) : string :=
  match data with
  | [] => EmptyString
  | [a] =>
      let a := Byte.to_N a in
      String (b64_digit (a / 4))
        (String (b64_digit ((a mod 4) * 16)) "==")
  | [a; b] =>
      let a := Byte.to_N a in
      let b := Byte.to_N b in
      String (b64_digit (a / 4))
        (String (b64_digit ((a mod 4) * 16 + b / 16))
           (String (b64_digit ((b mod 16) * 4)) "="))
  | a :: b :: c :: rest =>
      let a := Byte.to_N a in
      let b := Byte.to_N b in
      let c := Byte.to_N c in
      String (b64_digit (a / 4))
        (String (b64_digit ((a mod 4) * 16 + b / 16))
           (String (b64_digit ((b mod 16) * 4 + c / 64))
              (String (b64_digit (c mod 64)) (b64encode rest))))
  end%N.

Section Base64.

(** [base64.b64decode] is the standard library's; what it returns or
    raises for a given text is left open. *)
Variable b64decode : string -> res bytes.

(** [open(path, "rb").read()] *)
Variable read_file : string -> res bytes.

Definition decode_base64 (encoded_data : string) : res (bytes * string) :=
  match split "," encoded_data with
  | [header; encoded_content] =>
      decoded_data ← b64decode encoded_content;
      before_semicolon ← item (split ";" header) 0;
      file_extension ← item (split "/" before_semicolon) 1;
      Val (decoded_data, file_extension)
  | [] => Err (ValueError (NotEnoughValues 0))
  | [_] => Err (ValueError (NotEnoughValues 1))
  | _ => Err (ValueError TooManyValues)
  end.

Definition encode_base64 (image_path : string) : res string :=
  data ← read_file image_path;
  Val ("data:image/png;base64," +:+ b64encode data).

End Base64.

(** ** ImageProcessor (lines 120-151) *)

Inductive color_code := COLOR_RGB2GRAY | COLOR_GRAY2RGB.
Inductive dtype := float32 | uint8.

Section ImageProcessor.

(** Arrays and the numpy, OpenCV and torch operations on them are
    external; each may raise. An optional array is an array or Python's
    [None], which [cv2.imread] returns for a file it cannot read. The
    [assert] of line 127 is taken to be enabled. *)
Variable ndarray : Type.
Variable tensor : Type.
Variable ndarray_copy : ndarray -> res ndarray.
Variable np_transpose : ndarray -> list nat -> res ndarray.
Variable cv2_resize : ndarray -> option (Z * Z) -> res ndarray.
Variable cv2_cvtColor : ndarray -> color_code -> res ndarray.
Variable ndarray_astype : ndarray -> dtype -> res ndarray.
Variable np_load : string -> res ndarray.
Variable cv2_imread : string -> res (option ndarray).
Variable torch_from_numpy : ndarray -> res tensor.

(** [[fmt.index(c) for c in order]] *)
Fixpoint axes_of (fmt : string) (order : list ascii) : res (list nat) :=
  match order with
  | [] => Val []
  | c :: cs => i ← str_index c fmt; rest ← axes_of fmt cs; Val (i :: rest)
  end.

(** [x.copy()] on something that may be [None]. *)
Definition copy_of (x : option ndarray) : res ndarray :=
  match x with
  | Some a => ndarray_copy a
  | None => Err AttributeError
  end.

(** [output_dims_xy] is [None] when the caller leaves the default. *)
Definition resize_image (input_image : option ndarray) (input_format output_format : string)
    (output_dims_xy : option (Z * Z)) (grayscale : bool) (output_type : dtype)
  : res ndarray :=
  let current_format := lower input_format in
  let output_format := lower output_format in
  let inter_format := "yxc" in
  rearranged ← copy_of input_image;
  (if bool_decide (sorted_chars current_format = sorted_chars output_format)
      && bool_decide (sorted_chars output_format = ["c"; "x"; "y"]%char)
   then Val tt else Err AssertionError);;
  axes ← axes_of current_format (String.list_ascii_of_string inter_format);
  transposed ← np_transpose rearranged axes;
  let current_format := inter_format in
  resized ← cv2_resize transposed output_dims_xy;
  '(resized, current_format) ←
     (if grayscale then
        gray ← cv2_cvtColor resized COLOR_RGB2GRAY;
        rgb ← cv2_cvtColor gray COLOR_GRAY2RGB;
        Val (rgb, "yxc")
      else Val (resized, current_format));
  resized ← ndarray_astype resized output_type;
  axes ← axes_of current_format (String.list_ascii_of_string output_format);
  np_transpose resized axes.

Definition read_image (input_image_path : string) : res (option ndarray) :=
  if endswith input_image_path ".npy" then
    input_image ← np_load input_image_path; Val (Some input_image)
  else cv2_imread input_image_path.

Definition get_torch_image (input_image_path input_axes : string) (grayscale : bool)
  : res tensor :=
  input_image ← read_image input_image_path;
  resized_image ← resize_image input_image input_axes "bcyx" None grayscale float32;
  resized_image ← ndarray_astype resized_image float32;
  torch_from_numpy resized_image.

End ImageProcessor.

End Cellpose.

(** * Properties *)

(** ** The clamp *)

Lemma clamp_top_k_range k : 1 <= clamp_top_k k <= 15.
Proof. unfold clamp_top_k. lia. Qed.

Example clamp_top_k_100 : clamp_top_k 100 = 15.
Proof. reflexivity. Qed.

Example clamp_top_k_minus_3 : clamp_top_k (-3) = 1.
Proof. reflexivity. Qed.

Lemma clamp_top_k_idem k : clamp_top_k (clamp_top_k k) = clamp_top_k k.
Proof. unfold clamp_top_k. lia. Qed.

Lemma clamped_idem r : clamped (clamped r) = clamped r.
Proof. unfold clamped; simpl. by rewrite clamp_top_k_idem. Qed.

Lemma slice_to_clamp {A} k (l : list A) :
  slice_to (clamp_top_k k) l = take (Z.to_nat (clamp_top_k k)) l.
Proof.
  unfold slice_to. pose proof (clamp_top_k_range k) as Hk.
  destruct (Z.leb_spec 0 (clamp_top_k k)); [done | lia].
Qed.

(** ** The loop of lines 49-57 *)

Ltac step := unfold mbind, M_bind, mret, M_ret, get_req, emit, raise; simpl.

Lemma for_each_cons {A S} (body : S -> A -> M S) s x xs w :
  for_each body s (x :: xs) w =
    match body s x w with
    | (Ok s', w') => for_each body s' xs w'
    | (Raise e, w') => (Raise e, w')
    end.
Proof. reflexivity. Qed.

Lemma loop_body_run collections vars item w :
  loop_body collections vars item w =
    match collection_info_dict collections !! item.1 with
    | Some c =>
        (Ok (mkLocals (channel_results vars ++ [pending (req w) item])
                      (Some (Manifest.base_url c))),
         mkWorld (req w) (trace w ++ issue_events (req w) item))
    | None => (Raise (KeyError item.1), w)
    end.
Proof.
  destruct item as [cid st]. unfold loop_body, dict_getitem, pending, issue_events.
  step. destruct (collection_info_dict collections !! cid); step; [|done].
  by rewrite <- app_assoc.
Qed.

Lemma loop_registered collections items : forall vars w,
  registered collections items = true ->
  for_each (loop_body collections) vars items w =
    (Ok (mkLocals (channel_results vars ++ map (pending (req w)) items)
                  (bound_base_url collections (base_url_var vars) items)),
     mkWorld (req w) (trace w ++ flat_map (issue_events (req w)) items)).
Proof.
  induction items as [|item items IH]; intros vars w Hreg.
  - simpl. step. rewrite !app_nil_r. by destruct vars, w.
  - simpl in Hreg. apply andb_prop in Hreg as [Hc Hreg].
    rewrite for_each_cons, loop_body_run.
    destruct (collection_info_dict collections !! item.1) as [c|] eqn:Hd; [|done].
    rewrite IH by done. simpl. rewrite Hd. by rewrite <- !app_assoc.
Qed.

Lemma loop_unregistered collections items : forall vars w,
  registered collections items = false ->
  exists cid,
    for_each (loop_body collections) vars items w =
      (Raise (KeyError cid),
       mkWorld (req w)
         (trace w ++ flat_map (issue_events (req w)) (issued collections items)))
    /\ cid ∈ map fst items
    /\ collection_info_dict collections !! cid = None.
Proof.
  induction items as [|item items IH]; intros vars w Hreg.
  - done.
  - rewrite for_each_cons, loop_body_run. simpl in Hreg. simpl issued.
    destruct (collection_info_dict collections !! item.1) as [c|] eqn:Hd; simpl in Hreg.
    + edestruct IH as (cid' & Hrun & Hin & Hnone); [done|].
      exists cid'. rewrite Hrun. simpl. rewrite <- app_assoc.
      repeat split; [by right | done].
    + exists (item.1). simpl. rewrite app_nil_r. destruct w.
      repeat split; [by left | done].
Qed.

Lemma issued_registered collections items :
  registered collections items = true -> issued collections items = items.
Proof.
  induction items as [|item items IH]; simpl; [done|].
  destruct (collection_info_dict collections !! item.1); [|done].
  intros Hreg. by rewrite IH.
Qed.

(** ** The gather of line 59 *)

Lemma first_exception_Some order aws e :
  first_exception order aws = Some e -> Raises e ∈ aws.
Proof.
  induction order as [|i order IH]; simpl; [done|].
  destruct (aws !! i) as [[l|e']|] eqn:Hi; try done.
  intros [= ->]. by eapply list_elem_of_lookup_2.
Qed.

Lemma first_exception_app o1 o2 aws :
  first_exception (o1 ++ o2) aws =
    match first_exception o1 aws with
    | Some e => Some e
    | None => first_exception o2 aws
    end.
Proof.
  induction o1 as [|i o1 IH]; simpl; [done|].
  by destruct (aws !! i) as [[l|e']|].
Qed.

Lemma first_exception_None order aws i e :
  first_exception order aws = None -> i ∈ order -> aws !! i ≠ Some (Raises e).
Proof.
  induction order as [|j order IH]; simpl; intros Hnone Hin.
  - by apply elem_of_nil in Hin.
  - apply elem_of_cons in Hin as [->|Hin].
    + by destruct (aws !! j) as [[l|e']|].
    + destruct (aws !! j) as [[l|e']|]; try done; by apply IH.
Qed.

Lemma gather_None_all_returned sched aws :
  first_exception (sched ++ seq 0 (length aws)) aws = None ->
  map Returns (omap returned aws) = aws.
Proof.
  rewrite first_exception_app.
  destruct (first_exception sched aws); [done|]. intros Hnone.
  assert (forall e, Raises e ∉ aws) as Hno.
  { intros e Hin. apply list_elem_of_lookup_1 in Hin as [i Hi].
    eapply first_exception_None; [exact Hnone| |exact Hi].
    apply elem_of_seq. apply lookup_lt_Some in Hi. unfold coroutine in *. lia. }
  clear Hnone. induction aws as [|[l|e] aws IH]; simpl; [done| |].
  - f_equal. apply IH. intros e He. apply (Hno e). by right.
  - exfalso. apply (Hno e). by left.
Qed.

Lemma gather_Some_if_raises sched aws e :
  Raises e ∈ aws ->
  exists e', first_exception (sched ++ seq 0 (length aws)) aws = Some e'.
Proof.
  intros Hin.
  destruct (first_exception (sched ++ seq 0 (length aws)) aws) as [e'|] eqn:Hf; [by eexists|].
  apply gather_None_all_returned in Hf. rewrite <- Hf in Hin.
  apply list_elem_of_fmap in Hin as (l & Heq & _). done.
Qed.

(** Whether the [await] raises does not depend on the completion order. *)
Lemma gather_raises_any_order s1 s2 aws :
  first_exception (s1 ++ seq 0 (length aws)) aws = None ->
  first_exception (s2 ++ seq 0 (length aws)) aws = None.
Proof.
  intros H1.
  destruct (first_exception (s2 ++ seq 0 (length aws)) aws) as [e|] eqn:H2; [|done].
  apply first_exception_Some in H2.
  apply gather_None_all_returned in H1. rewrite <- H1 in H2.
  apply list_elem_of_fmap in H2 as (l & Heq & _). done.
Qed.

(** ** Lines 62-76 *)

Lemma make_doc_bound cr b p w :
  make_doc (mkLocals cr (Some b)) p w = (Ok (tag b p), w).
Proof. by destruct p. Qed.

Lemma mapM_make_doc_bound cr b l w :
  mapM (make_doc (mkLocals cr (Some b))) l w = (Ok (map (tag b) l), w).
Proof.
  induction l as [|[d s] l IH]; [done|].
  change (mapM (make_doc (mkLocals cr (Some b))) ((d, s) :: l) w)
    with (match make_doc (mkLocals cr (Some b)) (d, s) w with
          | (Ok y, w') =>
              match mapM (make_doc (mkLocals cr (Some b))) l w' with
              | (Ok ys, w'') => (Ok (y :: ys), w'')
              | (Raise e, w'') => (Raise e, w'')
              end
          | (Raise e, w') => (Raise e, w')
          end).
  rewrite make_doc_bound, IH. done.
Qed.

Lemma print_retrieved_run docs w :
  print_retrieved docs w =
    match docs with
    | [] => (Ok tt, w)
    | d0 :: d1 :: d2 :: _ =>
        (Ok tt, mkWorld (req w)
                  (trace w ++ [EvPrintRetrieved (retrieved_line d0) (retrieved_line d1)
                                 (retrieved_line d2)]))
    | _ => (Raise IndexError, w)
    end.
Proof.
  unfold print_retrieved, getitem.
  destruct docs as [|d0 [|d1 [|d2 rest]]]; by step.
Qed.

Lemma bound_base_url_nonempty collections items v :
  registered collections items = true -> items ≠ [] ->
  exists b, bound_base_url collections v items = Some b.
Proof.
  revert v. induction items as [|item items IH]; intros v Hreg Hne; [done|].
  simpl in *. apply andb_prop in Hreg as [Hc Hreg].
  destruct (collection_info_dict collections !! item.1) as [c|]; [|done].
  destruct items as [|item' items]; [by eexists|]. by apply IH.
Qed.

(** What a call does when every store key is in the manifest. *)
Lemma run_extension_registered collections sched items w :
  registered collections items = true ->
  run_extension collections sched items w =
    let r' := clamped (req w) in
    let aws := map (pending r') items in
    let w1 := mkWorld r' (trace w ++ flat_map (issue_events r') items
                            ++ [EvGather (length items)]) in
    match first_exception (sched ++ seq 0 (length aws)) aws with
    | Some e => (Raise e, w1)
    | None =>
        match print_retrieved (ranked collections items (req w)) w1 with
        | (Ok _, w2) => (Ok (ranked collections items (req w)), w2)
        | (Raise e, w2) => (Raise e, w2)
        end
    end.
Proof.
  intros Hreg. unfold run_extension.
  unfold mbind at 1, M_bind at 1, get_req at 1.
  unfold mbind at 1, M_bind at 1, set_top_k at 1.
  unfold mbind at 1, M_bind at 1.
  rewrite loop_registered by done. simpl.
  unfold mbind at 1, M_bind at 1, gather at 1.
  unfold mbind at 1, M_bind at 1, emit at 1. simpl.
  fold (clamped (req w)). rewrite length_map.
  destruct (first_exception _ _) as [e|] eqn:Hf.
  { unfold raise. by rewrite <- app_assoc. }
  unfold mret at 1, M_ret at 1.
  unfold mbind at 1, M_bind at 1.
  assert (mapM (make_doc (mkLocals (map (pending (clamped (req w))) items)
                           (bound_base_url collections None items)))
               (concat (omap returned (map (pending (clamped (req w))) items)))
               (mkWorld (clamped (req w))
                  ((trace w ++ flat_map (issue_events (clamped (req w))) items)
                     ++ [EvGather (length items)]))
          = (Ok (candidates (tagging_base_url collections items)
                   (omap returned (map (pending (clamped (req w))) items))),
             mkWorld (clamped (req w))
                  ((trace w ++ flat_map (issue_events (clamped (req w))) items)
                     ++ [EvGather (length items)]))) as ->.
  { destruct items as [|item items].
    - done.
    - destruct (bound_base_url_nonempty collections (item :: items) None) as [b Hb]; [done..|].
      unfold tagging_base_url. rewrite Hb. simpl default. apply mapM_make_doc_bound. }
  unfold mbind at 1, M_bind at 1, get_req at 1. simpl req.
  change (top_k (clamped (req w))) with (clamp_top_k (top_k (req w))).
  rewrite slice_to_clamp. rewrite <- app_assoc.
  unfold mbind, M_bind, mret, M_ret. unfold ranked.
  change (top_k (clamped (req w))) with (clamp_top_k (top_k (req w))).
  by destruct (print_retrieved _ _) as [[[]|e] w2].
Qed.

(** What a call does when some store key has no manifest entry: line 52
    raises, after the searches of the keys before it were issued. *)
Lemma run_extension_unregistered collections sched items w :
  registered collections items = false ->
  exists cid,
    run_extension collections sched items w =
      (Raise (KeyError cid),
       mkWorld (clamped (req w))
         (trace w ++ flat_map (issue_events (clamped (req w))) (issued collections items))).
Proof.
  intros Hreg. unfold run_extension.
  unfold mbind at 1, M_bind at 1, get_req at 1.
  unfold mbind at 1, M_bind at 1, set_top_k at 1.
  unfold mbind at 1, M_bind at 1.
  edestruct (loop_unregistered collections items (mkLocals [] None)) as (cid & -> & _);
    [done|].
  by exists cid.
Qed.

(** ** Float comparison *)

Module FloatOrder.

Lemma compare_antisym (a b : float) :
  SFcompare b a = option_map CompOpp (SFcompare a b).
Proof.
  destruct a as [[]|[]| |[] m1 e1], b as [[]|[]| |[] m2 e2]; simpl; try reflexivity.
  - rewrite (Z.compare_antisym e1 e2).
    destruct (e1 ?= e2)%Z; simpl; try reflexivity.
    change (Pos.compare_cont Eq m2 m1) with (Pos.compare m2 m1).
    change (Pos.compare_cont Eq m1 m2) with (Pos.compare m1 m2).
    by rewrite (Pos.compare_antisym m1 m2).
  - rewrite (Z.compare_antisym e1 e2).
    destruct (e1 ?= e2)%Z; simpl; try reflexivity.
    change (Pos.compare_cont Eq m2 m1) with (Pos.compare m2 m1).
    change (Pos.compare_cont Eq m1 m2) with (Pos.compare m1 m2).
    by rewrite (Pos.compare_antisym m1 m2).
Qed.

Lemma compare_defined (a b : float) :
  is_nan a = false -> is_nan b = false -> exists c, SFcompare a b = Some c.
Proof.
  destruct a as [[]|[]| |[] m1 e1], b as [[]|[]| |[] m2 e2]; simpl;
    intros; try discriminate; by eexists.
Qed.

(** [not (a < b)] gives [a >= b] unless a NaN is involved. *)
Lemma lt_false_ge (a b : float) :
  is_nan a = false -> is_nan b = false ->
  float_lt a b = false -> float_ge a b = true.
Proof.
  intros Ha Hb. unfold float_lt, float_ge, SFltb, SFleb.
  rewrite (compare_antisym a b).
  destruct (compare_defined a b Ha Hb) as [c ->]. by destruct c.
Qed.

Lemma lt_true_ge (a b : float) : float_lt a b = true -> float_ge b a = true.
Proof.
  unfold float_lt, float_ge, SFltb, SFleb.
  by destruct (SFcompare a b) as [[]|].
Qed.

Lemma compare_Eq_finite s1 m1 e1 s2 m2 e2 :
  SFcompare (S754_finite s1 m1 e1) (S754_finite s2 m2 e2) = Some Eq ->
  s1 = s2 /\ m1 = m2 /\ e1 = e2.
Proof.
  simpl. destruct s1, s2; try discriminate;
    destruct (e1 ?= e2)%Z eqn:He; try discriminate;
    apply Z.compare_eq_iff in He; intros [= Hm].
  - apply (f_equal CompOpp) in Hm. rewrite CompOpp_involutive in Hm. simpl in Hm.
    apply Pos.compare_eq_iff in Hm. done.
  - apply Pos.compare_eq_iff in Hm. done.
Qed.

Lemma compare_refl_finite s m e :
  SFcompare (S754_finite s m e) (S754_finite s m e) = Some Eq.
Proof.
  simpl. rewrite Z.compare_refl.
  change (Pos.compare_cont Eq m m) with (Pos.compare m m).
  rewrite Pos.compare_refl. by destruct s.
Qed.

(** Two keys equal to a third are not strictly ordered. *)
Lemma eq_eq_not_lt (x y s : float) :
  float_eq x s = true -> float_eq y s = true -> float_lt x y = false.
Proof.
  unfold float_eq, float_lt, SFeqb, SFltb.
  destruct (SFcompare x s) as [[]|] eqn:Hx; try discriminate.
  destruct (SFcompare y s) as [[]|] eqn:Hy; try discriminate.
  intros _ _.
  destruct s as [bs|bs| |bs ms es].
  - destruct x as [[]|[]| |[] ? ?]; try discriminate;
      destruct y as [[]|[]| |[] ? ?]; try discriminate; reflexivity.
  - destruct x as [[]|[]| |[] ? ?], bs; try discriminate;
      destruct y as [[]|[]| |[] ? ?]; try discriminate; reflexivity.
  - destruct x as [[]|[]| |[] ? ?]; discriminate.
  - destruct x as [[]|[]| |bx mx ex]; try (destruct bs; discriminate).
    destruct y as [[]|[]| |b_y my ey]; try (destruct bs; discriminate).
    apply compare_Eq_finite in Hx as (-> & -> & ->).
    apply compare_Eq_finite in Hy as (-> & -> & ->).
    by rewrite compare_refl_finite.
Qed.

End FloatOrder.

(** ** The sort of line 70 *)

Section Sorting.

Implicit Types (x : DocWithScore) (l : list DocWithScore).

Lemma insert_desc_perm x l : insert_desc x l ≡ₚ x :: l.
Proof.
  induction l as [|y ys IH]; simpl; [done|].
  destruct (float_lt (score x) (score y)); [|done].
  rewrite IH. apply Permutation_swap.
Qed.

Lemma sorted_by_score_reverse_perm l : sorted_by_score_reverse l ≡ₚ l.
Proof.
  induction l as [|x l IH]; simpl; [done|].
  rewrite insert_desc_perm. by rewrite IH.
Qed.

Lemma sorted_by_score_reverse_length l :
  length (sorted_by_score_reverse l) = length l.
Proof. apply Permutation_length, sorted_by_score_reverse_perm. Qed.

(** Stability: elements with equal keys keep their relative order. *)
Lemma insert_desc_stable s x l :
  List.filter (same_key s) (insert_desc x l) = List.filter (same_key s) (x :: l).
Proof.
  induction l as [|y ys IH]; [done|].
  simpl insert_desc.
  destruct (float_lt (score x) (score y)) eqn:Hlt; [|done].
  simpl in *. rewrite IH.
  destruct (same_key s x) eqn:Hx, (same_key s y) eqn:Hy; try done.
  unfold same_key in *.
  by rewrite (FloatOrder.eq_eq_not_lt _ _ _ Hx Hy) in Hlt.
Qed.

Lemma sorted_by_score_reverse_stable s l :
  List.filter (same_key s) (sorted_by_score_reverse l) = List.filter (same_key s) l.
Proof.
  induction l as [|x l IH]; [done|].
  simpl sorted_by_score_reverse. rewrite insert_desc_stable.
  simpl. by rewrite IH.
Qed.

Lemma insert_desc_numeric x l :
  is_nan (score x) = false -> numeric l -> numeric (insert_desc x l).
Proof.
  intros Hx Hl. unfold numeric.
  rewrite (insert_desc_perm x l). by constructor.
Qed.

Lemma insert_desc_HdRel y x l :
  score_ge y x -> HdRel score_ge y l -> HdRel score_ge y (insert_desc x l).
Proof.
  intros Hyx Hl. destruct l as [|z zs]; simpl; [by constructor|].
  destruct (float_lt (score x) (score z)); constructor; [|done].
  by inversion Hl.
Qed.

Lemma insert_desc_sorted x l :
  is_nan (score x) = false -> numeric l ->
  Sorted score_ge l -> Sorted score_ge (insert_desc x l).
Proof.
  intros Hx. induction l as [|y ys IH]; intros Hnum Hs; simpl.
  - by repeat constructor.
  - inversion Hnum as [|? ? Hy Hys]; subst. inversion Hs as [|? ? Hs' Hhd]; subst.
    destruct (float_lt (score x) (score y)) eqn:Hlt.
    + constructor; [by apply IH|].
      apply insert_desc_HdRel; [|done]. by apply FloatOrder.lt_true_ge.
    + constructor; [done|]. constructor. by apply FloatOrder.lt_false_ge.
Qed.

Lemma sorted_by_score_reverse_sorted l :
  numeric l -> Sorted score_ge (sorted_by_score_reverse l).
Proof.
  induction l as [|x l IH]; intros Hnum; simpl; [constructor|].
  inversion Hnum; subst.
  apply insert_desc_sorted; [done| |by apply IH].
  unfold numeric. by rewrite sorted_by_score_reverse_perm.
Qed.

Lemma Sorted_take_score n l : Sorted score_ge l -> Sorted score_ge (take n l).
Proof.
  revert n. induction l as [|x l IH]; intros [|n] Hs; simpl; try constructor.
  - apply IH. by inversion Hs.
  - inversion Hs as [|? ? _ Hhd]; subst.
    destruct l as [|y l], n as [|n]; simpl; constructor. by inversion Hhd.
Qed.

End Sorting.

Lemma nan_free_candidates r items b :
  nan_free r items = true ->
  numeric (candidates b (omap returned (map (pending r) items))).
Proof.
  unfold nan_free, numeric, candidates. intros Hnf.
  induction items as [|item items IH]; simpl in *; [constructor|].
  apply andb_prop in Hnf as [Hi Hnf].
  destruct (pending r item) as [l|e]; simpl; [|by apply IH].
  rewrite map_app. apply Forall_app. split; [|by apply IH].
  clear -Hi. induction l as [|p l IHl]; simpl in *; [constructor|].
  apply andb_prop in Hi as [Hp Hl]. constructor; [|by apply IHl].
  simpl. by apply negb_true_iff in Hp.
Qed.

(** ** The state a call leaves behind *)

Lemma print_retrieved_world docs w :
  exists rest,
    (print_retrieved docs w).2 = mkWorld (req w) (trace w ++ rest)
    /\ searches rest = [] /\ gathers rest = [].
Proof.
  rewrite print_retrieved_run.
  destruct docs as [|d0 [|d1 [|d2 docs]]]; simpl;
    try (exists []; rewrite app_nil_r; by destruct w).
  by eexists [_].
Qed.

Lemma run_extension_world collections sched items w :
  exists rest,
    (run_extension collections sched items w).2 =
      mkWorld (clamped (req w))
        (trace w ++ flat_map (issue_events (clamped (req w))) (issued collections items)
           ++ rest)
    /\ searches rest = [].
Proof.
  destruct (registered collections items) eqn:Hreg.
  - rewrite run_extension_registered by done. cbv zeta.
    rewrite issued_registered by done.
    destruct (first_exception _ _) as [e|].
    + by exists [EvGather (length items)].
    + match goal with |- context [print_retrieved ?d ?w1] =>
        destruct (print_retrieved_world d w1) as (rest & Hw & Hs & _);
        destruct (print_retrieved d w1) as [[[]|e] w2] end;
        simpl in *; subst w2; exists (EvGather (length items) :: rest);
        (split; [by rewrite <- !app_assoc | done]).
  - destruct (run_extension_unregistered collections sched items w Hreg) as (cid & ->).
    exists []. by rewrite app_nil_r.
Qed.



Lemma gathers_issue_events r items : gathers (flat_map (issue_events r) items) = [].
Proof. induction items as [|item items IH]; simpl; done. Qed.

(** ** C9: the request object is mutated in place *)

(** C9. After any call (whatever its result), the caller's request object
    has [top_k = max(1, min(original top_k, 15))] and its [query] is the
    one the caller supplied. *)
Theorem request_top_k_mutated_in_place collections sched docs_store_dict w :
  req (run_extension collections sched docs_store_dict w).2 =
    mkDocumentRetrievalInput (query (req w)) (Z.max 1 (Z.min (top_k (req w)) 15)).
Proof.
  destruct (run_extension_world collections sched docs_store_dict w) as (rest & -> & _).
  reflexivity.
Qed.

(** ** C3: the k of every search is the clamped top_k *)


(** ** C4: fan-out, then one await, then the merge *)



(** ** C7: a failing search aborts the request *)

(** C7. When every store key is registered and the search of some
    collection raises, the call raises: the exception is one raised by a
    collection's search (that very exception when no other search raises
    a different one), no result list is produced, and the event log shows
    one search per collection followed by the await and nothing else (no
    retry, no merge). *)
Theorem search_error_aborts_request collections sched docs_store_dict r cid st e :
  registered collections docs_store_dict = true ->
  (cid, st) ∈ docs_store_dict ->
  asimilarity_search_with_relevance_scores st (query r) (clamp_top_k (top_k r)) = Raises e ->
  exists e',
    call collections sched docs_store_dict r =
      (Raise e',
       mkWorld (clamped r)
         (flat_map (issue_events (clamped r)) docs_store_dict
            ++ [EvGather (length docs_store_dict)]))
    /\ Raises e' ∈ map (pending (clamped r)) docs_store_dict
    /\ ((forall e'', Raises e'' ∈ map (pending (clamped r)) docs_store_dict -> e'' = e)
        -> e' = e).
Proof.
  intros Hreg Hin Hraise. unfold call. rewrite run_extension_registered by done. cbv zeta.
  change (trace (mkWorld r [])) with (@nil event).
  change (req (mkWorld r [])) with r. rewrite app_nil_l.
  assert (Raises e ∈ map (pending (clamped r)) docs_store_dict) as He.
  { apply list_elem_of_fmap. exists (cid, st). split; [|done].
    unfold pending. simpl. by rewrite Hraise. }
  destruct (gather_Some_if_raises sched _ _ He) as [e' Hf].
  rewrite Hf. exists e'. apply first_exception_Some in Hf.
  repeat split; [done|]. intros Honly. by apply Honly.
Qed.

Lemma search_error_aborts_request_witness :
  registered manifest_AB stores_AB_B_fails = true
  /\ ("B", const_store (Raises (UpstreamError "index unavailable"))) ∈ stores_AB_B_fails
  /\ exists e',
       call manifest_AB [] stores_AB_B_fails (mkDocumentRetrievalInput "q" 2) =
         (Raise e',
          mkWorld (mkDocumentRetrievalInput "q" 2)
            [EvPrint "Retrieving documents from database A with query: q";
             EvSearch "A" "q" 2;
             EvPrint "Retrieving documents from database B with query: q";
             EvSearch "B" "q" 2;
             EvGather 2]).
Proof.
  assert (("B", const_store (Raises (UpstreamError "index unavailable")))
            ∈ stores_AB_B_fails) as Hin.
  { right. left. }
  split; [reflexivity|]. split; [exact Hin|].
  destruct (search_error_aborts_request manifest_AB [] stores_AB_B_fails
              (mkDocumentRetrievalInput "q" 2) "B"
              (const_store (Raises (UpstreamError "index unavailable")))
              (UpstreamError "index unavailable") eq_refl Hin eq_refl)
    as (e' & Hcall & _).
  exists e'. exact Hcall.
Defined.

(** ** C8: calling twice gives the same output *)

Lemma run_extension_value_any_order collections s1 s2 items w :
  value (run_extension collections s1 items w).1 =
  value (run_extension collections s2 items w).1.
Proof.
  destruct (registered collections items) eqn:Hreg.
  - rewrite !run_extension_registered by done. cbv zeta.
    destruct (first_exception (s1 ++ _) _) as [e1|] eqn:H1.
    + destruct (first_exception (s2 ++ _) _) as [e2|] eqn:H2; [done|].
      apply (gather_raises_any_order s2 s1) in H2. congruence.
    + rewrite (gather_raises_any_order s1 s2) by done. done.
  - destruct (run_extension_unregistered collections s1 items w Hreg) as (c1 & ->).
    destruct (run_extension_unregistered collections s2 items w Hreg) as (c2 & ->).
    done.
Qed.

Lemma call_clamped collections sched items r :
  call collections sched items (clamped r) = call collections sched items r.
Proof.
  unfold call, run_extension.
  unfold mbind at 1 3, M_bind at 1 3, get_req at 1 3.
  unfold mbind at 1 3, M_bind at 1 3, set_top_k at 1 2. simpl.
  by rewrite clamp_top_k_idem.
Qed.

(** C8. With the registry fixed and the stores deterministic (functions of
    their arguments), a second call with the same request object, which
    the first call has mutated, does exactly what the first did: same
    result, same list order, same events, same request state. Whether and
    what list is returned does not even depend on the order in which the
    searches complete. *)
Theorem repeated_call_same_output collections sched docs_store_dict r :
  call collections sched docs_store_dict
       (req (call collections sched docs_store_dict r).2)
    = call collections sched docs_store_dict r
  /\ forall sched',
       value (call collections sched' docs_store_dict
                   (req (call collections sched docs_store_dict r).2)).1
       = value (call collections sched docs_store_dict r).1.
Proof.
  assert (req (call collections sched docs_store_dict r).2 = clamped r) as ->.
  { unfold call.
    by destruct (run_extension_world collections sched docs_store_dict (mkWorld r []))
      as (rest & -> & _). }
  split; [apply call_clamped|].
  intros sched'. rewrite call_clamped. apply run_extension_value_any_order.
Qed.

(** ** C2: the merged list is sorted, stably, and cut to the clamped top_k *)

Lemma float_ge_numeric (a b : float) :
  float_ge a b = true -> is_nan a = false /\ is_nan b = false.
Proof.
  unfold float_ge, SFleb.
  destruct a as [[]|[]| |[] ? ?], b as [[]|[]| |[] ? ?]; simpl; try done.
Qed.

(** A list of two or more scores that contains a NaN is not in descending
    order, however it is arranged. *)
Lemma sorted_is_numeric l :
  Sorted score_ge l -> (2 <= length l)%nat -> numeric l.
Proof.
  induction 1 as [|a l Hs IH Hhd]; simpl; intros Hlen; [lia|].
  destruct Hhd as [|b l' Hab]; simpl in *; [lia|].
  apply float_ge_numeric in Hab as [Ha Hb].
  constructor; [done|].
  destruct l' as [|c l'']; [by repeat constructor|].
  apply IH. simpl. lia.
Qed.

(** C2, as stated, fails: a store that returns a NaN score among its
    results makes the call return a list in which a score is followed by
    one it is not [>=] to. Here the candidates come back in input order
    (every [<] the sort evaluates on them is false), and no other
    arrangement of them would be descending either. *)
Lemma merged_output_unsorted_with_nan :
  exists out w',
    call manifest_AB [] stores_nan (mkDocumentRetrievalInput "q" 3) = (Ok out, w')
    /\ ~ Sorted score_ge out
    /\ forall l, l ≡ₚ out -> ~ Sorted score_ge l.
Proof.
  eexists. eexists. split; [vm_compute; reflexivity|].
  assert (forall l, l ≡ₚ [tag (Some "https://a.example/") (d1, f0_9);
                          tag (Some "https://a.example/") (d2, S754_nan);
                          tag (Some "https://a.example/") (d3, f0_5)] ->
                    ~ Sorted score_ge l) as Hany.
  { intros l Hperm Hs. apply sorted_is_numeric in Hs.
    - unfold numeric in Hs. rewrite Hperm in Hs.
      inversion Hs as [|? ? _ Hs']. inversion Hs' as [|? ? Hnan _]. discriminate Hnan.
    - apply Permutation_length in Hperm. rewrite Hperm. simpl. lia. }
  split; [by apply Hany | exact Hany].
Qed.

(** C2, amended. When no store returns a NaN score, the list a call
    returns is the first [max(1, min(top_k, 15))] elements of a
    rearrangement of all candidates (the per-store results concatenated
    in discovery order) that is in descending score order and keeps
    candidates of equal score in their discovery order; so the returned
    list is itself in descending order and no longer than the clamped
    top_k. *)
Theorem merged_output_sorted_stable_bounded collections sched docs_store_dict r out w' :
  call collections sched docs_store_dict r = (Ok out, w') ->
  nan_free (clamped r) docs_store_dict = true ->
  exists full,
    full ≡ₚ candidates (tagging_base_url collections docs_store_dict)
              (omap returned (map (pending (clamped r)) docs_store_dict))
    /\ Sorted score_ge full
    /\ (forall s,
          List.filter (same_key s) full =
          List.filter (same_key s)
            (candidates (tagging_base_url collections docs_store_dict)
               (omap returned (map (pending (clamped r)) docs_store_dict))))
    /\ out = take (Z.to_nat (Z.max 1 (Z.min (top_k r) 15))) full
    /\ Sorted score_ge out
    /\ (length out <= Z.to_nat (Z.max 1 (Z.min (top_k r) 15)))%nat.
Proof.
  intros Hcall Hnum. unfold call in Hcall.
  destruct (registered collections docs_store_dict) eqn:Hreg.
  2:{ destruct (run_extension_unregistered collections sched docs_store_dict
                  (mkWorld r []) Hreg) as (cid & Hrun). congruence. }
  rewrite run_extension_registered in Hcall by done. cbv zeta in Hcall.
  change (req (mkWorld r [])) with r in Hcall.
  destruct (first_exception _ _) as [e|]; [done|].
  assert (out = ranked collections docs_store_dict r) as ->.
  { destruct (print_retrieved _ _) as [[[]|e] w2]; congruence. }
  unfold ranked.
  exists (sorted_by_score_reverse
            (candidates (tagging_base_url collections docs_store_dict)
               (omap returned (map (pending (clamped r)) docs_store_dict)))).
  pose proof (nan_free_candidates (clamped r) docs_store_dict
                (tagging_base_url collections docs_store_dict) Hnum) as Hc.
  split; [apply sorted_by_score_reverse_perm|].
  split; [by apply sorted_by_score_reverse_sorted|].
  split; [intros s; apply sorted_by_score_reverse_stable|].
  split; [done|].
  split; [by apply Sorted_take_score, sorted_by_score_reverse_sorted|].
  rewrite length_take. apply Nat.le_min_l.
Qed.

Lemma merged_output_sorted_stable_bounded_witness :
  nan_free (clamped (mkDocumentRetrievalInput "q" 3)) stores_AB = true
  /\ exists full,
       Sorted score_ge full
       /\ [tag (Some "https://b.example/") (d1, f0_9);
           tag (Some "https://b.example/") (d3, f0_8);
           tag (Some "https://b.example/") (d2, f0_5)]
          = take (Z.to_nat (Z.max 1 (Z.min 3 15))) full.
Proof.
  split; [reflexivity|].
  assert (call manifest_AB [] stores_AB (mkDocumentRetrievalInput "q" 3) =
            (Ok [tag (Some "https://b.example/") (d1, f0_9);
                 tag (Some "https://b.example/") (d3, f0_8);
                 tag (Some "https://b.example/") (d2, f0_5)],
             (call manifest_AB [] stores_AB (mkDocumentRetrievalInput "q" 3)).2))
    as Hcall by (vm_compute; reflexivity).
  destruct (merged_output_sorted_stable_bounded manifest_AB [] stores_AB
              (mkDocumentRetrievalInput "q" 3) _ _ Hcall eq_refl)
    as (full & _ & Hsorted & _ & Hout & _).
  exists full. split; [exact Hsorted | exact Hout].
Defined.

(** ** C1: the base URL attached to the returned documents *)

(** Every returned document carries the base URL the local [base_url]
    holds after the loop, that is the one of the last store key. *)
Lemma output_base_url_is_last collections sched items r out w' :
  call collections sched items r = (Ok out, w') ->
  Forall (fun d => base_url d = tagging_base_url collections items) out.
Proof.
  intros Hcall. unfold call in Hcall.
  destruct (registered collections items) eqn:Hreg.
  2:{ destruct (run_extension_unregistered collections sched items (mkWorld r []) Hreg)
        as (cid & Hrun). congruence. }
  rewrite run_extension_registered in Hcall by done. cbv zeta in Hcall.
  change (req (mkWorld r [])) with r in Hcall.
  destruct (first_exception _ _) as [e|]; [done|].
  assert (out = ranked collections items r) as ->.
  { destruct (print_retrieved _ _) as [[[]|e] w2]; congruence. }
  unfold ranked. apply Forall_take.
  rewrite sorted_by_score_reverse_perm. unfold candidates.
  apply List.Forall_forall. intros d Hd. by apply in_map_iff in Hd as (p & <- & _).
Qed.

(** C1 (the code at a failing input). With collection A (base URL
    https://a.example/) returning d1 and d2 and collection B (base URL
    https://b.example/) returning d3, the call returns d1 and d2 tagged
    with B's base URL: the documents of A do not carry the base URL of the
    collection they were retrieved from. *)
Theorem provenance_of_first_collection_lost :
  (call manifest_AB [] stores_AB (mkDocumentRetrievalInput "q" 3)).1 =
    Ok [ mkDocWithScore "d1" f0_9 [] (Some "https://b.example/");
         mkDocWithScore "d3" f0_8 [] (Some "https://b.example/");
         mkDocWithScore "d2" f0_5 [] (Some "https://b.example/") ]
  /\ Manifest.base_url <$> (collection_info_dict manifest_AB !! "A")
       = Some (Some "https://a.example/")
  /\ pending (mkDocumentRetrievalInput "q" 3)
       ("A", const_store (Returns [(d1, f0_9); (d2, f0_5)]))
       = Returns [(d1, f0_9); (d2, f0_5)].
Proof. repeat split; vm_compute; reflexivity. Qed.

(** ** C5 and C6: lists of one or two documents *)

(** The result of a call in which every key is registered and no search
    raises: the ranked list when it is empty or has three or more
    elements, and [IndexError] (from the indexing at line 74) when it has
    one or two. *)
Lemma run_extension_result collections sched items w :
  registered collections items = true ->
  first_exception (sched ++ seq 0 (length items))
    (map (pending (clamped (req w))) items) = None ->
  (run_extension collections sched items w).1 =
    match ranked collections items (req w) with
    | [] => Ok []
    | _ :: _ :: _ :: _ => Ok (ranked collections items (req w))
    | _ => Raise IndexError
    end.
Proof.
  intros Hreg Hf. rewrite run_extension_registered by done. cbv zeta.
  rewrite length_map, Hf. rewrite print_retrieved_run.
  by destruct (ranked collections items (req w)) as [|d0 [|d1 [|d2 rest]]].
Qed.

(** C5 (the code at a failing input). With one collection that returns a
    single document and [top_k = 5], the candidate count (1) is below the
    clamped top_k (5) and the call raises [IndexError] instead of
    returning the candidate. With a collection that returns nothing the
    call returns the empty list. *)
Theorem single_candidate_raises_IndexError :
  (call manifest_AB [] stores_A_one (mkDocumentRetrievalInput "q" 5)).1
    = Raise IndexError
  /\ ranked manifest_AB stores_A_one (mkDocumentRetrievalInput "q" 5)
    = [ mkDocWithScore "d1" f0_9 [] (Some "https://a.example/") ]
  /\ (call manifest_AB [] stores_A_empty (mkDocumentRetrievalInput "q" 5)).1
    = Ok [].
Proof. repeat split; vm_compute; reflexivity. Qed.

(** C6 (the code at the claim's input). With A returning
    [(d1, 0.9), (d2, 0.5)], B returning [(d3, 0.8)] and [top_k = 2], the
    list built at line 70 is [d1 (0.9), d3 (0.8)], both tagged with B's
    base URL, and the call then raises [IndexError] at line 74: no list is
    returned. *)
Theorem scenario_top_k_2_raises_IndexError :
  (call manifest_AB [] stores_AB (mkDocumentRetrievalInput "q" 2)).1
    = Raise IndexError
  /\ ranked manifest_AB stores_AB (mkDocumentRetrievalInput "q" 2)
    = [ mkDocWithScore "d1" f0_9 [] (Some "https://b.example/");
        mkDocWithScore "d3" f0_8 [] (Some "https://b.example/") ].
Proof. repeat split; vm_compute; reflexivity. Qed.

(** * Further properties of run_extension *)

Lemma first_unregistered_None collections items :
  first_unregistered collections items = None <-> registered collections items = true.
Proof.
  induction items as [|item items IH]; simpl; [done|].
  destruct (collection_info_dict collections !! item.1); simpl; [done|].
  split; discriminate.
Qed.

Lemma first_unregistered_Some collections items cid :
  first_unregistered collections items = Some cid ->
  registered collections items = false
  /\ collection_info_dict collections !! cid = None
  /\ (length (issued collections items) < length items)%nat.
Proof.
  induction items as [|item items IH]; simpl; [done|].
  destruct (collection_info_dict collections !! item.1) eqn:Hd; simpl.
  - intros H. destruct (IH H) as (? & ? & ?). repeat split; [done..|lia].
  - intros [= <-]. repeat split; [done|lia].
Qed.

Lemma loop_first_unregistered collections items cid : forall vars w,
  first_unregistered collections items = Some cid ->
  for_each (loop_body collections) vars items w =
    (Raise (KeyError cid),
     mkWorld (req w)
       (trace w ++ flat_map (issue_events (req w)) (issued collections items))).
Proof.
  induction items as [|item items IH]; intros vars w Hf; [done|].
  rewrite for_each_cons, loop_body_run. simpl in *.
  destruct (collection_info_dict collections !! item.1) as [c|] eqn:Hd.
  - rewrite IH by done. simpl. by rewrite <- app_assoc.
  - injection Hf as <-. rewrite app_nil_r. by destruct w.
Qed.

Lemma call_first_unregistered collections sched items r cid :
  first_unregistered collections items = Some cid ->
  call collections sched items r =
    (Raise (KeyError cid),
     mkWorld (clamped r)
       (flat_map (issue_events (clamped r)) (issued collections items))).
Proof.
  intros Hf. unfold call, run_extension.
  unfold mbind at 1, M_bind at 1, get_req at 1.
  unfold mbind at 1, M_bind at 1, set_top_k at 1.
  unfold mbind at 1, M_bind at 1.
  by rewrite (loop_first_unregistered _ _ cid).
Qed.

(** X1. A store key without manifest entry: the call raises [KeyError] for
    the first such key at line 52. The request has been clamped already,
    the searches of the keys before it were created but are never
    awaited, and nothing else happened. *)
Theorem unregistered_key_raises_KeyError collections sched docs_store_dict r cid :
  first_unregistered collections docs_store_dict = Some cid ->
  call collections sched docs_store_dict r =
    (Raise (KeyError cid),
     mkWorld (clamped r)
       (flat_map (issue_events (clamped r)) (issued collections docs_store_dict)))
  /\ gathers (trace (call collections sched docs_store_dict r).2) = []
  /\ collection_info_dict collections !! cid = None
  /\ (length (issued collections docs_store_dict) < length docs_store_dict)%nat.
Proof.
  intros Hf.
  pose proof (call_first_unregistered collections sched docs_store_dict r cid Hf) as Hcall.
  rewrite Hcall. simpl. rewrite gathers_issue_events.
  by destruct (first_unregistered_Some _ _ _ Hf) as (_ & ? & ?).
Qed.

Lemma unregistered_key_raises_KeyError_witness :
  first_unregistered manifest_AB stores_AC = Some "C"
  /\ call manifest_AB [] stores_AC (mkDocumentRetrievalInput "q" 30) =
       (Raise (KeyError "C"),
        mkWorld (mkDocumentRetrievalInput "q" 15)
          [EvPrint "Retrieving documents from database A with query: q";
           EvSearch "A" "q" 15]).
Proof.
  split; [reflexivity|].
  exact (proj1 (unregistered_key_raises_KeyError manifest_AB [] stores_AC
                  (mkDocumentRetrievalInput "q" 30) "C" eq_refl)).
Defined.

(** What a returning call returns. *)
Lemma call_Ok_inv collections sched items r out w' :
  call collections sched items r = (Ok out, w') ->
  registered collections items = true
  /\ first_exception (sched ++ seq 0 (length items))
       (map (pending (clamped r)) items) = None
  /\ out = ranked collections items r
  /\ (out = [] \/ (3 <= length out)%nat).
Proof.
  intros Hcall. unfold call in Hcall.
  destruct (registered collections items) eqn:Hreg.
  2:{ destruct (run_extension_unregistered collections sched items (mkWorld r []) Hreg)
        as (cid & Hrun). congruence. }
  rewrite run_extension_registered in Hcall by done. cbv zeta in Hcall.
  change (req (mkWorld r [])) with r in Hcall. rewrite length_map in Hcall.
  destruct (first_exception _ _) as [e|]; [done|].
  rewrite print_retrieved_run in Hcall.
  destruct (ranked collections items r) as [|x0 [|x1 [|x2 rest]]] eqn:Hr;
    try discriminate; injection Hcall as <- _; repeat split; auto.
  right. simpl. lia.
Qed.

Lemma ranked_length collections items r :
  length (ranked collections items r) =
    Nat.min (Z.to_nat (clamp_top_k (top_k r))) (candidate_count (clamped r) items).
Proof.
  unfold ranked, candidate_count, candidates.
  by rewrite length_take, sorted_by_score_reverse_length, length_map.
Qed.

(** X2. A returned list is empty or has between 3 and 15 documents: a call
    never returns one or two documents. *)
Theorem returned_list_is_empty_or_3_to_15 collections sched docs_store_dict r out w' :
  call collections sched docs_store_dict r = (Ok out, w') ->
  out = [] \/ (3 <= length out <= 15)%nat.
Proof.
  intros Hcall. destruct (call_Ok_inv _ _ _ _ _ _ Hcall) as (_ & _ & Hout & [->|Hlen]).
  - by left.
  - right. split; [done|]. rewrite Hout, ranked_length.
    pose proof (clamp_top_k_range (top_k r)). lia.
Qed.

Lemma returned_list_is_empty_or_3_to_15_witness :
  exists out w',
    call manifest_AB [] stores_AB (mkDocumentRetrievalInput "q" 3) = (Ok out, w')
    /\ (out = [] \/ (3 <= length out <= 15)%nat).
Proof.
  eexists. eexists.
  assert (call manifest_AB [] stores_AB (mkDocumentRetrievalInput "q" 3) =
            ((call manifest_AB [] stores_AB (mkDocumentRetrievalInput "q" 3)).1,
             (call manifest_AB [] stores_AB (mkDocumentRetrievalInput "q" 3)).2))
    as Hcall by (vm_compute; reflexivity).
  split; [exact Hcall|].
  exact (returned_list_is_empty_or_3_to_15 manifest_AB [] stores_AB
           (mkDocumentRetrievalInput "q" 3) _ _ Hcall).
Defined.

(** X3. With a requested [top_k] of 2 or less, a call that returns returns
    the empty list: it cannot deliver one or two documents. *)
Theorem small_top_k_returns_nothing collections sched docs_store_dict r out w' :
  top_k r <= 2 ->
  call collections sched docs_store_dict r = (Ok out, w') ->
  out = [].
Proof.
  intros Hk Hcall.
  destruct (call_Ok_inv _ _ _ _ _ _ Hcall) as (_ & _ & Hout & [->|Hlen]); [done|].
  rewrite Hout, ranked_length in Hlen. unfold clamp_top_k in Hlen. lia.
Qed.

Lemma small_top_k_returns_nothing_witness :
  top_k (mkDocumentRetrievalInput "q" 2) <= 2
  /\ exists out w',
       call manifest_AB [] stores_A_empty (mkDocumentRetrievalInput "q" 2) = (Ok out, w')
       /\ out = [].
Proof.
  assert (call manifest_AB [] stores_A_empty (mkDocumentRetrievalInput "q" 2) =
            (Ok [], (call manifest_AB [] stores_A_empty (mkDocumentRetrievalInput "q" 2)).2))
    as Hcall by (vm_compute; reflexivity).
  assert (top_k (mkDocumentRetrievalInput "q" 2) <= 2) as Hk by (simpl; lia).
  split; [exact Hk|]. eexists. eexists. split; [exact Hcall|].
  exact (small_top_k_returns_nothing manifest_AB [] stores_A_empty
           (mkDocumentRetrievalInput "q" 2) _ _ Hk Hcall).
Defined.

(** X4. The number of documents returned is the smaller of the clamped top_k
    and the number of candidates: nothing is padded and nothing is
    withheld. *)
Theorem returned_count_is_min collections sched docs_store_dict r out w' :
  call collections sched docs_store_dict r = (Ok out, w') ->
  length out =
    Nat.min (Z.to_nat (Z.max 1 (Z.min (top_k r) 15)))
            (candidate_count (clamped r) docs_store_dict).
Proof.
  intros Hcall. destruct (call_Ok_inv _ _ _ _ _ _ Hcall) as (_ & _ & -> & _).
  apply ranked_length.
Qed.

Lemma returned_count_is_min_witness :
  length [ mkDocWithScore "d1" f0_9 [] (Some "https://b.example/");
           mkDocWithScore "d3" f0_8 [] (Some "https://b.example/");
           mkDocWithScore "d2" f0_5 [] (Some "https://b.example/") ]
  = Nat.min (Z.to_nat (Z.max 1 (Z.min 3 15)))
      (candidate_count (clamped (mkDocumentRetrievalInput "q" 3)) stores_AB).
Proof.
  assert (call manifest_AB [] stores_AB (mkDocumentRetrievalInput "q" 3) =
    (Ok [ mkDocWithScore "d1" f0_9 [] (Some "https://b.example/");
          mkDocWithScore "d3" f0_8 [] (Some "https://b.example/");
          mkDocWithScore "d2" f0_5 [] (Some "https://b.example/") ],
     (call manifest_AB [] stores_AB (mkDocumentRetrievalInput "q" 3)).2))
    as Hcall by (vm_compute; reflexivity).
  exact (returned_count_is_min manifest_AB [] stores_AB
           (mkDocumentRetrievalInput "q" 3) _ _ Hcall).
Defined.

Lemma bound_base_url_last collections front cid st c v :
  collection_info_dict collections !! cid = Some c ->
  bound_base_url collections v (front ++ [(cid, st)]) = Some (Manifest.base_url c).
Proof.
  intros Hc. unfold bound_base_url. rewrite foldl_app. simpl. by rewrite Hc.
Qed.

(** X5. Every document a call returns carries the base URL of the manifest
    entry of the last key of the store dict, whichever store it came
    from. *)
Theorem returned_base_url_is_that_of_last_key
    collections sched front cid st c r out w' :
  collection_info_dict collections !! cid = Some c ->
  call collections sched (front ++ [(cid, st)]) r = (Ok out, w') ->
  Forall (fun d => base_url d = Manifest.base_url c) out.
Proof.
  intros Hc Hcall.
  destruct (call_Ok_inv _ _ _ _ _ _ Hcall) as (_ & _ & -> & _).
  unfold ranked, tagging_base_url. rewrite (bound_base_url_last _ _ _ _ c) by done.
  simpl default. apply Forall_take.
  rewrite sorted_by_score_reverse_perm. unfold candidates.
  apply List.Forall_forall. intros d Hd. by apply in_map_iff in Hd as (p & <- & _).
Qed.

Lemma returned_base_url_is_that_of_last_key_witness :
  collection_info_dict manifest_AB !! "B"
    = Some (Manifest.mk "B" "Collection B" "second collection" (Some "https://b.example/"))
  /\ Forall (fun d => base_url d = Some "https://b.example/")
       [ mkDocWithScore "d1" f0_9 [] (Some "https://b.example/");
         mkDocWithScore "d3" f0_8 [] (Some "https://b.example/");
         mkDocWithScore "d2" f0_5 [] (Some "https://b.example/") ].
Proof.
  assert (call manifest_AB [] stores_AB (mkDocumentRetrievalInput "q" 3) =
    (Ok [ mkDocWithScore "d1" f0_9 [] (Some "https://b.example/");
          mkDocWithScore "d3" f0_8 [] (Some "https://b.example/");
          mkDocWithScore "d2" f0_5 [] (Some "https://b.example/") ],
     (call manifest_AB [] stores_AB (mkDocumentRetrievalInput "q" 3)).2))
    as Hcall by (vm_compute; reflexivity).
  assert (collection_info_dict manifest_AB !! "B"
    = Some (Manifest.mk "B" "Collection B" "second collection"
              (Some "https://b.example/"))) as Hc by (vm_compute; reflexivity).
  split; [exact Hc|].
  exact (returned_base_url_is_that_of_last_key manifest_AB []
           [("A", const_store (Returns [(d1, f0_9); (d2, f0_5)]))]
           "B" (const_store (Returns [(d3, f0_8)])) _
           (mkDocumentRetrievalInput "q" 3) _ _ Hc Hcall).
Defined.

(** X6. Every document a call returns was returned by one of the stores for
    the caller's query and the clamped k, with its text, score and
    metadata unchanged. *)
Theorem returned_documents_come_from_stores collections sched docs_store_dict r out w' :
  call collections sched docs_store_dict r = (Ok out, w') ->
  Forall (fun d =>
            exists cid st l p,
              (cid, st) ∈ docs_store_dict
              /\ asimilarity_search_with_relevance_scores st (query r)
                   (Z.max 1 (Z.min (top_k r) 15)) = Returns l
              /\ p ∈ l
              /\ doc d = Document.page_content p.1
              /\ score d = p.2
              /\ metadata d = Document.metadata p.1) out.
Proof.
  intros Hcall.
  destruct (call_Ok_inv _ _ _ _ _ _ Hcall) as (_ & _ & -> & _).
  unfold ranked. apply Forall_take. rewrite sorted_by_score_reverse_perm.
  unfold candidates. apply List.Forall_forall. intros d Hd.
  apply in_map_iff in Hd as (p & <- & Hp).
  apply in_concat in Hp as (l & Hl & Hpl).
  apply list_elem_of_In in Hl, Hpl.
  apply list_elem_of_omap in Hl as (o & Ho & Hret).
  apply list_elem_of_fmap in Ho as ([cid st] & -> & Hitem).
  exists cid, st, l, p. unfold pending in Hret. simpl in Hret.
  destruct (asimilarity_search_with_relevance_scores st (query r) (clamp_top_k (top_k r)))
    as [l'|e] eqn:Hs; [|done].
  injection Hret as ->. by repeat split.
Qed.

Lemma returned_documents_come_from_stores_witness :
  exists out w',
    call manifest_AB [] stores_AB (mkDocumentRetrievalInput "q" 3) = (Ok out, w')
    /\ Forall (fun d =>
         exists cid st l p,
           (cid, st) ∈ stores_AB
           /\ asimilarity_search_with_relevance_scores st "q" (Z.max 1 (Z.min 3 15))
              = Returns l
           /\ p ∈ l
           /\ doc d = Document.page_content p.1
           /\ score d = p.2
           /\ metadata d = Document.metadata p.1) out.
Proof.
  assert (call manifest_AB [] stores_AB (mkDocumentRetrievalInput "q" 3) =
    (Ok [ mkDocWithScore "d1" f0_9 [] (Some "https://b.example/");
          mkDocWithScore "d3" f0_8 [] (Some "https://b.example/");
          mkDocWithScore "d2" f0_5 [] (Some "https://b.example/") ],
     (call manifest_AB [] stores_AB (mkDocumentRetrievalInput "q" 3)).2))
    as Hcall by (vm_compute; reflexivity).
  eexists. eexists. split; [exact Hcall|].
  exact (returned_documents_come_from_stores manifest_AB [] stores_AB
           (mkDocumentRetrievalInput "q" 3) _ _ Hcall).
Defined.

(** X7. When every key is registered and every store returns no result, the
    call returns the empty list. *)
Theorem no_result_anywhere_returns_empty collections sched docs_store_dict r :
  registered collections docs_store_dict = true ->
  Forall (fun item => pending (clamped r) item = Returns []) docs_store_dict ->
  (call collections sched docs_store_dict r).1 = Ok [].
Proof.
  intros Hreg Hall.
  assert (map (pending (clamped r)) docs_store_dict
          = map (fun _ => Returns []) docs_store_dict) as Hmap.
  { clear Hreg. induction docs_store_dict as [|item items IH]; simpl; [done|].
    inversion Hall as [|? ? Hi Hrest]; subst. rewrite Hi. f_equal. by apply IH. }
  unfold call. rewrite run_extension_result; [|done|].
  - change (req (mkWorld r [])) with r.
    assert (ranked collections docs_store_dict r = []) as ->; [|done].
    unfold ranked. rewrite Hmap.
    assert (concat (omap returned (map (fun _ : string * docs_store => Returns [])
                                     docs_store_dict)) = []) as Hnil.
    { clear. induction docs_store_dict as [|i l IH]; simpl; [done|]. exact IH. }
    unfold candidates. rewrite Hnil. simpl. by rewrite take_nil.
  - change (req (mkWorld r [])) with r. rewrite Hmap.
    destruct (first_exception _ _) as [e|] eqn:Hf; [|done].
    apply first_exception_Some in Hf.
    apply list_elem_of_fmap in Hf as (? & ? & _). done.
Qed.

Lemma no_result_anywhere_returns_empty_witness :
  registered manifest_AB stores_A_empty = true
  /\ Forall (fun item => pending (clamped (mkDocumentRetrievalInput "q" 5)) item
                         = Returns []) stores_A_empty
  /\ (call manifest_AB [] stores_A_empty (mkDocumentRetrievalInput "q" 5)).1 = Ok [].
Proof.
  assert (Forall (fun item => pending (clamped (mkDocumentRetrievalInput "q" 5)) item
                              = Returns []) stores_A_empty) as Hall.
  { constructor; [reflexivity | constructor]. }
  split; [reflexivity|]. split; [exact Hall|].
  exact (no_result_anywhere_returns_empty manifest_AB [] stores_A_empty
           (mkDocumentRetrievalInput "q" 5) eq_refl Hall).
Defined.

Lemma all_returned_no_exception order (aws : list coroutine) :
  Forall (fun o => exists l, o = Returns l) aws ->
  first_exception order aws = None.
Proof.
  intros Hall.
  destruct (first_exception order aws) as [e|] eqn:Hf; [|done].
  apply first_exception_Some in Hf.
  rewrite List.Forall_forall in Hall.
  destruct (Hall (Raises e)) as [l Hl]; [by apply list_elem_of_In | done].
Qed.

(** X8. When every key is registered and every search returns, the length
    of the list built at line 70 decides the result: with one or two
    elements the call raises [IndexError] (line 74), otherwise it returns
    that list. The scores are taken without NaN, so that the list is the
    one Python's sort yields. *)
Theorem length_of_ranked_list_decides_result collections sched docs_store_dict r :
  registered collections docs_store_dict = true ->
  Forall (fun item => exists l, pending (clamped r) item = Returns l) docs_store_dict ->
  nan_free (clamped r) docs_store_dict = true ->
  ((1 <= length (ranked collections docs_store_dict r) <= 2)%nat ->
   (call collections sched docs_store_dict r).1 = Raise IndexError)
  /\ (~ (1 <= length (ranked collections docs_store_dict r) <= 2)%nat ->
      (call collections sched docs_store_dict r).1
        = Ok (ranked collections docs_store_dict r)).
Proof.
  intros Hreg Hall _. unfold call.
  rewrite run_extension_result; [|done|].
  2:{ apply all_returned_no_exception. apply List.Forall_forall.
      intros o Ho. apply in_map_iff in Ho as (item & <- & Hitem).
      rewrite List.Forall_forall in Hall. by apply Hall. }
  change (req (mkWorld r [])) with r.
  destruct (ranked collections docs_store_dict r) as [|x0 [|x1 [|x2 rest]]]; simpl;
    split; intros H; try done; lia.
Qed.

Lemma length_of_ranked_list_decides_result_witness :
  registered manifest_AB stores_A_one = true
  /\ Forall (fun item =>
               exists l, pending (clamped (mkDocumentRetrievalInput "q" 5)) item = Returns l)
       stores_A_one
  /\ nan_free (clamped (mkDocumentRetrievalInput "q" 5)) stores_A_one = true
  /\ (call manifest_AB [] stores_A_one (mkDocumentRetrievalInput "q" 5)).1
     = Raise IndexError.
Proof.
  assert (Forall (fun item =>
                    exists l, pending (clamped (mkDocumentRetrievalInput "q" 5)) item
                              = Returns l) stores_A_one) as Hall.
  { constructor; [by eexists | constructor]. }
  split; [reflexivity|]. split; [exact Hall|]. split; [reflexivity|].
  apply (proj1 (length_of_ranked_list_decides_result manifest_AB [] stores_A_one
                  (mkDocumentRetrievalInput "q" 5) eq_refl Hall eq_refl)).
  vm_compute. split; [apply le_n | apply le_S, le_n].
Defined.

(** ** Top-k selection *)

Lemma float_ge_trans (a b c : float) :
  float_ge a b = true -> float_ge b c = true -> float_ge a c = true.
Proof.
  unfold float_ge, SFleb.
  destruct a as [[]|[]| |[] ma ea], b as [[]|[]| |[] mb eb], c as [[]|[]| |[] mc ec];
    simpl; try done;
    change (Pos.compare_cont Eq) with Pos.compare;
    repeat match goal with
           | |- context [(?x ?= ?y)%Z] => destruct (Z.compare_spec x y)
           end; try done; try lia; subst;
    repeat match goal with
           | |- context [(?x ?= ?y)%positive] => destruct (Pos.compare_spec x y)
           end; simpl; try done; try lia.
Qed.

Lemma score_ge_trans (a b c : DocWithScore) :
  score_ge a b -> score_ge b c -> score_ge a c.
Proof. apply float_ge_trans. Qed.

Lemma sorted_strongly l : Sorted score_ge l -> StronglySorted score_ge l.
Proof. apply Sorted_StronglySorted. intros a b c. apply score_ge_trans. Qed.

Lemma strongly_sorted_split (l : list DocWithScore) n :
  StronglySorted score_ge l ->
  Forall (fun d => Forall (fun c => score_ge d c) (drop n l)) (take n l).
Proof.
  revert n. induction l as [|x l IH]; intros [|n] Hs; simpl; try constructor.
  - apply StronglySorted_inv in Hs as [_ Hx].
    rewrite List.Forall_forall in Hx |- *. intros c Hc. apply Hx.
    apply list_elem_of_In. apply list_elem_of_In in Hc.
    by eapply (subseteq_drop n l).
  - apply IH. by apply StronglySorted_inv in Hs as [? _].
Qed.

(** X9. When no store returns a NaN score, the documents a call returns are
    the best ones: the candidates split into the returned list and the
    rest, and every returned document scores at least as high as every
    document of the rest. *)
Theorem returned_documents_outscore_the_rest
    collections sched docs_store_dict r out w' :
  call collections sched docs_store_dict r = (Ok out, w') ->
  nan_free (clamped r) docs_store_dict = true ->
  exists rest,
    out ++ rest ≡ₚ candidates (tagging_base_url collections docs_store_dict)
                     (omap returned (map (pending (clamped r)) docs_store_dict))
    /\ Forall (fun d => Forall (fun c => float_ge (score d) (score c) = true) rest) out.
Proof.
  intros Hcall Hnum.
  destruct (call_Ok_inv _ _ _ _ _ _ Hcall) as (_ & _ & -> & _).
  unfold ranked.
  set (cs := candidates (tagging_base_url collections docs_store_dict)
               (omap returned (map (pending (clamped r)) docs_store_dict))).
  exists (drop (Z.to_nat (top_k (clamped r))) (sorted_by_score_reverse cs)).
  split.
  - rewrite take_drop. apply sorted_by_score_reverse_perm.
  - apply strongly_sorted_split, sorted_strongly, sorted_by_score_reverse_sorted.
    by apply nan_free_candidates.
Qed.

Lemma returned_documents_outscore_the_rest_witness :
  nan_free (clamped (mkDocumentRetrievalInput "q" 3)) stores_AB_four = true
  /\ exists w' rest,
       call manifest_AB [] stores_AB_four (mkDocumentRetrievalInput "q" 3)
         = (Ok [ mkDocWithScore "d1" f0_9 [] (Some "https://b.example/");
                 mkDocWithScore "d3" f0_8 [] (Some "https://b.example/");
                 mkDocWithScore "d4" f0_7 [] (Some "https://b.example/") ], w')
       /\ length rest = 1%nat
       /\ [ mkDocWithScore "d1" f0_9 [] (Some "https://b.example/");
            mkDocWithScore "d3" f0_8 [] (Some "https://b.example/");
            mkDocWithScore "d4" f0_7 [] (Some "https://b.example/") ] ++ rest
          ≡ₚ candidates (tagging_base_url manifest_AB stores_AB_four)
               (omap returned
                  (map (pending (clamped (mkDocumentRetrievalInput "q" 3)))
                     stores_AB_four))
       /\ Forall (fun d => Forall (fun c => float_ge (score d) (score c) = true) rest)
            [ mkDocWithScore "d1" f0_9 [] (Some "https://b.example/");
              mkDocWithScore "d3" f0_8 [] (Some "https://b.example/");
              mkDocWithScore "d4" f0_7 [] (Some "https://b.example/") ].
Proof.
  split; [reflexivity|].
  assert (call manifest_AB [] stores_AB_four (mkDocumentRetrievalInput "q" 3) =
    (Ok [ mkDocWithScore "d1" f0_9 [] (Some "https://b.example/");
          mkDocWithScore "d3" f0_8 [] (Some "https://b.example/");
          mkDocWithScore "d4" f0_7 [] (Some "https://b.example/") ],
     (call manifest_AB [] stores_AB_four (mkDocumentRetrievalInput "q" 3)).2))
    as Hcall by (vm_compute; reflexivity).
  destruct (returned_documents_outscore_the_rest manifest_AB [] stores_AB_four
              (mkDocumentRetrievalInput "q" 3) _ _ Hcall eq_refl)
    as (rest & Hperm & Hrest).
  eexists. exists rest. split; [exact Hcall|].
  split; [|split; [exact Hperm | exact Hrest]].
  apply Permutation_length in Hperm. rewrite length_app in Hperm.
  assert (length (candidates (tagging_base_url manifest_AB stores_AB_four)
                    (omap returned
                       (map (pending (clamped (mkDocumentRetrievalInput "q" 3)))
                          stores_AB_four))) = 4%nat) as Hfour
    by (vm_compute; reflexivity).
  rewrite Hfour in Hperm. simpl in Hperm. lia.
Defined.

(** * Properties of image_processing.py *)

Module CellposeProperties.

Import Cellpose.
Import Stdlib.Strings.Ascii.

(** ** Lists of labels *)

Lemma contains_elem_of l x : contains l x = true <-> x ∈ l.
Proof.
  unfold contains. rewrite existsb_exists. split.
  - intros (y & Hin & Heq). apply String.eqb_eq in Heq as ->. by apply list_elem_of_In.
  - intros Hin. exists x. split; [by apply list_elem_of_In | apply String.eqb_refl].
Qed.

Lemma contains_not_elem_of l x : contains l x = false <-> x ∉ l.
Proof.
  rewrite <- contains_elem_of. by destruct (contains l x).
Qed.

Lemma list_index_first x l :
  x ∈ l ->
  exists i, list_index x l = Val i /\ l !! i = Some x
            /\ forall j, (j < i)%nat -> l !! j ≠ Some x.
Proof.
  induction l as [|y ys IH]; intros Hin; [by apply elem_of_nil in Hin|].
  simpl. destruct (String.eqb x y) eqn:Heq.
  - apply String.eqb_eq in Heq as ->. exists 0%nat.
    split; [done|]. split; [done|]. lia.
  - apply String.eqb_neq in Heq.
    apply elem_of_cons in Hin as [->|Hin]; [done|].
    destruct (IH Hin) as (i & -> & Hi & Hfirst). exists (S i).
    split; [done|]. split; [done|].
    intros [|j] Hj; simpl; [congruence|]. apply Hfirst. lia.
Qed.

Lemma count_zero x l : x ∉ l -> count x l = 0%nat.
Proof.
  unfold count. induction l as [|y ys IH]; intros Hx; simpl; [done|].
  apply not_elem_of_cons in Hx as [Hne Hx].
  apply String.eqb_neq in Hne. rewrite Hne. by apply IH.
Qed.

Lemma count_pos x l : x ∈ l -> (1 <= count x l)%nat.
Proof.
  unfold count. induction l as [|y ys IH]; intros Hx; simpl.
  - by apply elem_of_nil in Hx.
  - destruct (String.eqb x y) eqn:Heq; simpl; [lia|].
    apply String.eqb_neq in Heq. apply elem_of_cons in Hx as [->|Hx]; [done|].
    by apply IH.
Qed.

Lemma count_cons x y l :
  count x (y :: l) = ((if String.eqb x y then 1 else 0) + count x l)%nat.
Proof. unfold count. simpl. by destruct (String.eqb x y). Qed.

Lemma no_repeat_NoDup l :
  existsb (fun c => (1 <? count c l)%nat) l = false <-> NoDup l.
Proof.
  split.
  - intros Hex. assert (forall c, c ∈ l -> (count c l <= 1)%nat) as Hle.
    { intros c Hc. destruct (Nat.ltb_spec 1 (count c l)) as [Hlt|]; [|done].
      assert (existsb (fun c => (1 <? count c l)%nat) l = true); [|congruence].
      apply existsb_exists. exists c. split; [by apply list_elem_of_In|].
      by apply Nat.ltb_lt. }
    clear Hex. induction l as [|y ys IH]; [constructor|].
    constructor.
    + intros Hy. specialize (Hle y ltac:(left)). rewrite count_cons in Hle.
      rewrite String.eqb_refl in Hle. apply count_pos in Hy. lia.
    + apply IH. intros c Hc. specialize (Hle c ltac:(by right)).
      rewrite count_cons in Hle. lia.
  - intros Hnd. apply not_true_is_false. intros Hex.
    apply existsb_exists in Hex as (c & Hc & Hlt). apply Nat.ltb_lt in Hlt.
    apply list_elem_of_In in Hc. clear Hc.
    induction Hnd as [|y ys Hy Hnd IH]; [unfold count in Hlt; simpl in Hlt; lia|].
    rewrite count_cons in Hlt. destruct (String.eqb c y) eqn:Heq.
    + apply String.eqb_eq in Heq as ->. rewrite (count_zero y ys) in Hlt by done. lia.
    + simpl in Hlt. by apply IH.
Qed.

(** ** validate_axes_length *)

Lemma list_index_lookup x l i : list_index x l = Val i -> l !! i = Some x.
Proof.
  revert i. induction l as [|y ys IH]; intros i Hi; simpl in Hi; [done|].
  destruct (String.eqb_spec x y) as [<-|Hne].
  - by injection Hi as <-.
  - destruct (list_index x ys) as [j|e]; [|done]. injection Hi as <-. by apply IH.
Qed.


Lemma list_index_NoDup x l i :
  NoDup l -> l !! i = Some x -> list_index x l = Val i.
Proof.
  intros Hnd Hi.
  destruct (list_index_first x l) as (j & Hj & Hlj & _).
  { by eapply list_elem_of_lookup_2. }
  rewrite Hj. f_equal. by eapply NoDup_lookup.
Qed.

Lemma check_shape_spec (l : list string) (shape : option (list Z)) :
  check_shape l shape = Val tt
  <-> forall sh, shape = Some sh ->
        length l = length sh
        /\ forall i d, list_index "c" l = Val i -> sh !! i = Some d -> d <= 5.
Proof.
  unfold check_shape. destruct shape as [sh|].
  2:{ split; [|done]. by intros _ sh. }
  unfold mbind, res_bind.
  destruct (Nat.eqb_spec (length l) (length sh)) as [Hlen|Hlen]; simpl.
  2:{ split; [done|]. intros H. by destruct (H sh eq_refl) as [? _]. }
  destruct (contains l "c") eqn:Hc.
  - apply contains_elem_of in Hc.
    destruct (list_index_first _ _ Hc) as (i & Hi & Hli & _). rewrite Hi.
    assert (is_Some (sh !! i)) as [d Hd].
    { apply lookup_lt_is_Some. rewrite <- Hlen. by eapply lookup_lt_Some. }
    unfold item. rewrite Hd.
    destruct (Z.gtb_spec d 5) as [Hgt|Hle].
    + split; [done|]. intros H. destruct (H sh eq_refl) as [_ H'].
      specialize (H' i d eq_refl Hd). lia.
    + split; [|done]. intros _ sh' [= <-]. split; [done|].
      intros i' d' [= <-] Hd'. congruence.
  - apply contains_not_elem_of in Hc. split; [|done]. intros _ sh' [= <-].
    split; [done|]. intros i d Hi _. exfalso. apply Hc.
    apply list_index_lookup in Hi. by eapply list_elem_of_lookup_2.
Qed.

Lemma allowed_labels_spec (l : list string) :
  forallb (contains ["b"; "x"; "y"; "z"; "c"; "t"]) l = true
  <-> forall c, c ∈ l -> c ∈ ["b"; "x"; "y"; "z"; "c"; "t"].
Proof.
  rewrite forallb_forall. split.
  - intros H c Hc. apply contains_elem_of, H. by apply list_elem_of_In.
  - intros H c Hc. apply contains_elem_of, H. by apply list_elem_of_In.
Qed.

Lemma t_check_spec (l : list string) :
  contains l "t" && existsb (fun c => negb (contains l c)) ["z"; "b"; "x"; "y"] = false
  <-> ("t" ∈ l -> forall c, c ∈ ["z"; "b"; "x"; "y"] -> c ∈ l).
Proof.
  destruct (contains l "t") eqn:Hct; [rewrite andb_true_l | rewrite andb_false_l].
  - apply contains_elem_of in Hct. split.
    + intros Hex _ c Hc. apply contains_elem_of.
      destruct (contains l c) eqn:Hcc; [done|].
      assert (existsb (fun c => negb (contains l c)) ["z"; "b"; "x"; "y"] = true);
        [|congruence].
      apply existsb_exists. exists c. split; [by apply list_elem_of_In|]. by rewrite Hcc.
    + intros H. apply not_true_is_false. intros Hex.
      apply existsb_exists in Hex as (c & Hc & Hn).
      apply list_elem_of_In in Hc. apply (H Hct), contains_elem_of in Hc.
      by rewrite Hc in Hn.
  - apply contains_not_elem_of in Hct. split; [|done]. by intros _ Hin.
Qed.

(** The validator returns its argument exactly when all four checks pass. *)
Lemma validate_axes_length_checks v shape v' :
  validate_axes_length v shape = Val v' <->
  v' = v
  /\ check_shape (labels v) shape = Val tt
  /\ forallb (contains ["b"; "x"; "y"; "z"; "c"; "t"]) (labels v) = true
  /\ contains (labels v) "t"
       && existsb (fun c => negb (contains (labels v) c)) ["z"; "b"; "x"; "y"] = false
  /\ existsb (fun c => (1 <? count c (labels v))%nat) (labels v) = false.
Proof.
  unfold validate_axes_length, mbind, res_bind.
  destruct (check_shape (labels v) shape) as [[]|e].
  2:{ split; [done|]. by intros (_ & ? & _). }
  destruct (forallb _ _).
  2:{ split; [done|]. by intros (_ & _ & ? & _). }
  destruct (contains (labels v) "t" && _).
  { split; [done|]. by intros (_ & _ & _ & ? & _). }
  destruct (existsb _ (labels v)).
  { split; [done|]. by intros (_ & _ & _ & _ & ?). }
  split; [by intros [= <-] | by intros (-> & _)].
Qed.

(** X10. An [axes] value passes the validator exactly when: its length is
    the number of dimensions of the shape and the dimension labelled ['c']
    is at most 5 (when the shape is known); every label is one of
    b, x, y, z, c, t; ['t'] is used only together with all of z, b, x, y;
    and no label is repeated. It is returned unchanged. *)
Theorem validate_axes_length_accepts_iff v shape v' :
  validate_axes_length v shape = Val v' <->
  v' = v
  /\ (forall sh, shape = Some sh ->
        length (labels v) = length sh
        /\ forall i d, labels v !! i = Some "c" -> sh !! i = Some d -> d <= 5)
  /\ (forall c, c ∈ labels v -> c ∈ ["b"; "x"; "y"; "z"; "c"; "t"])
  /\ ("t" ∈ labels v -> forall c, c ∈ ["z"; "b"; "x"; "y"] -> c ∈ labels v)
  /\ NoDup (labels v).
Proof.
  rewrite validate_axes_length_checks, check_shape_spec, allowed_labels_spec,
    t_check_spec, no_repeat_NoDup.
  split.
  - intros (-> & Hs & Ha & Ht & Hnd). repeat split; try done.
    + by apply Hs.
    + intros i d Hi. destruct (Hs sh H) as [_ Hc]. apply Hc.
      by apply list_index_NoDup.
  - intros (-> & Hs & Ha & Ht & Hnd). repeat split; try done.
    + by apply Hs.
    + intros i d Hi. destruct (Hs sh H) as [_ Hc]. apply Hc.
      by apply list_index_lookup.
Qed.

(** X11. Accepted axes have at most six labels, so a shape of more than
    six dimensions is never accepted. *)
Theorem validated_axes_at_most_six v shape v' :
  validate_axes_length v shape = Val v' ->
  (length (labels v) <= 6)%nat
  /\ forall sh, shape = Some sh -> (length sh <= 6)%nat.
Proof.
  intros Hv. apply validate_axes_length_checks in Hv as (_ & Hs & Ha & _ & Hnd).
  pose proof (proj1 (allowed_labels_spec _) Ha) as Hallowed.
  apply no_repeat_NoDup in Hnd.
  assert (length (labels v) <= 6)%nat as Hlen.
  { change 6%nat with (length ["b"; "x"; "y"; "z"; "c"; "t"]).
    apply NoDup_incl_length; [by apply NoDup_ListNoDup|].
    intros c Hc. apply list_elem_of_In, Hallowed. by apply list_elem_of_In. }
  split; [done|]. intros sh Hsh.
  destruct (proj1 (check_shape_spec _ _) Hs sh Hsh) as [<- _]. done.
Qed.

Lemma validated_axes_at_most_six_witness :
  validate_axes_length (mkAxisGuess ["c"; "y"; "x"]) (Some [3; 512; 512])
    = Val (mkAxisGuess ["c"; "y"; "x"])
  /\ (length ["c"; "y"; "x"] <= 6)%nat.
Proof.
  split; [reflexivity|].
  exact (proj1 (validated_axes_at_most_six (mkAxisGuess ["c"; "y"; "x"])
                  (Some [3; 512; 512]) _ eq_refl)).
Defined.

(** X12. The label ['t'] is accepted only in a list of at least five
    labels (it needs z, b, x and y beside it): axes of four or fewer
    labels that pass the validator never contain ['t']. *)
Theorem validated_t_needs_five_axes v shape v' :
  validate_axes_length v shape = Val v' ->
  "t" ∈ labels v ->
  (5 <= length (labels v))%nat.
Proof.
  intros Hv Ht. apply validate_axes_length_checks in Hv as (_ & _ & _ & Hall & _).
  pose proof (proj1 (t_check_spec _) Hall Ht) as Hother.
  change 5%nat with (length ["t"; "z"; "b"; "x"; "y"]).
  apply NoDup_incl_length.
  - apply NoDup_ListNoDup. apply (bool_decide_unpack _). by vm_compute.
  - intros c Hc. apply list_elem_of_In. apply list_elem_of_In in Hc.
    apply elem_of_cons in Hc as [->|Hc]; [done|]. by apply Hother.
Qed.

Lemma validated_t_needs_five_axes_witness :
  validate_axes_length (mkAxisGuess ["t"; "z"; "b"; "y"; "x"]) None
    = Val (mkAxisGuess ["t"; "z"; "b"; "y"; "x"])
  /\ "t" ∈ ["t"; "z"; "b"; "y"; "x"]
  /\ (5 <= length ["t"; "z"; "b"; "y"; "x"])%nat.
Proof.
  assert ("t" ∈ ["t"; "z"; "b"; "y"; "x"]) as Ht by left.
  split; [reflexivity|]. split; [exact Ht|].
  exact (validated_t_needs_five_axes (mkAxisGuess ["t"; "z"; "b"; "y"; "x"]) None _
           eq_refl Ht).
Defined.

(** ** str.split *)

Lemma split_nonempty sep s : split sep s ≠ [].
Proof.
  destruct s as [|c rest]; simpl; [done|].
  destruct (Stdlib.Strings.Ascii.eqb c sep); [done|]. by destruct (split sep rest).
Qed.

Lemma split_length sep s : length (split sep s) = S (occurrences sep s).
Proof.
  induction s as [|c rest IH]; simpl; [done|].
  destruct (Stdlib.Strings.Ascii.eqb c sep); simpl; [by rewrite IH|].
  pose proof (split_nonempty sep rest).
  destruct (split sep rest) as [|p ps]; [done|]. simpl in *. lia.
Qed.

Lemma split_no_sep sep s : occurrences sep s = 0%nat -> split sep s = [s].
Proof.
  induction s as [|c rest IH]; simpl; [done|].
  destruct (Stdlib.Strings.Ascii.eqb c sep); simpl; [done|].
  intros H. by rewrite IH.
Qed.

Lemma split_app sep a b :
  occurrences sep a = 0%nat ->
  split sep (a +:+ String sep b) = a :: split sep b.
Proof.
  induction a as [|c rest IH]; simpl.
  - intros _. by rewrite Ascii.eqb_refl.
  - destruct (Stdlib.Strings.Ascii.eqb c sep); simpl; [done|].
    intros H. by rewrite IH.
Qed.

Lemma append_assoc (a b c : string) : (a +:+ b) +:+ c = a +:+ b +:+ c.
Proof.
  induction a as [|d rest IH]; [done|].
  change (String d ((rest +:+ b) +:+ c) = String d (rest +:+ b +:+ c)). by f_equal.
Qed.

Lemma occurrences_app c a b :
  occurrences c (a +:+ b) = (occurrences c a + occurrences c b)%nat.
Proof.
  induction a as [|d rest IH]; [done|].
  change (occurrences c (String d (rest +:+ b))
          = (occurrences c (String d rest) + occurrences c b)%nat).
  simpl. rewrite IH. lia.
Qed.

(** ** decode_base64 and encode_base64 *)

(** With exactly one comma, the text splits into header and content. *)
Lemma decode_base64_header_content (b64decode : string -> res bytes) header content :
  occurrences "," header = 0%nat ->
  occurrences "," content = 0%nat ->
  decode_base64 b64decode (header +:+ "," +:+ content)
  = (decoded_data ← b64decode content;
     before_semicolon ← item (split ";" header) 0;
     file_extension ← item (split "/" before_semicolon) 1;
     Val (decoded_data, file_extension)).
Proof.
  intros Hh Hc. unfold decode_base64.
  change (header +:+ "," +:+ content) with (header +:+ String "," content).
  by rewrite split_app, (split_no_sep "," content).
Qed.

(** X13. Text with no comma, or with more than one, is rejected with
    [ValueError] by the unpacking at line 108, whatever the decoder would
    do with it. *)
Theorem decode_base64_needs_exactly_one_comma (b64decode : string -> res bytes) s :
  occurrences "," s ≠ 1%nat ->
  decode_base64 b64decode s =
    Err (ValueError (if (occurrences "," s =? 0)%nat
                     then NotEnoughValues 1 else TooManyValues)).
Proof.
  intros Hn. unfold decode_base64.
  pose proof (split_length "," s) as Hlen.
  destruct (split "," s) as [|h [|c [|x rest]]]; simpl in Hlen.
  - lia.
  - by replace (occurrences "," s) with 0%nat by lia.
  - lia.
  - by replace (occurrences "," s) with (S (S (length rest))) by lia.
Qed.

Lemma decode_base64_needs_exactly_one_comma_witness :
  occurrences "," "data:image/png;base64" ≠ 1%nat
  /\ decode_base64 (fun _ => Val []) "data:image/png;base64"
     = Err (ValueError (NotEnoughValues 1)).
Proof.
  assert (occurrences "," "data:image/png;base64" ≠ 1%nat) as Hn by (vm_compute; lia).
  split; [exact Hn|].
  exact (decode_base64_needs_exactly_one_comma (fun _ => Val [])
           "data:image/png;base64" Hn).
Defined.

(** X14. For a data URL [mime/ext;params,content] the decoder is applied
    to [content] and the extension returned is [ext], the text between the
    first slash and the first semicolon. *)
Theorem decode_base64_data_url (b64decode : string -> res bytes)
    (mime ext params content : string) :
  occurrences "," mime = 0%nat -> occurrences ";" mime = 0%nat ->
  occurrences "/" mime = 0%nat ->
  occurrences "," ext = 0%nat -> occurrences ";" ext = 0%nat ->
  occurrences "/" ext = 0%nat ->
  occurrences "," params = 0%nat ->
  occurrences "," content = 0%nat ->
  decode_base64 b64decode
    (mime +:+ "/" +:+ ext +:+ ";" +:+ params +:+ "," +:+ content)
  = (decoded_data ← b64decode content; Val (decoded_data, ext)).
Proof.
  intros Hm1 Hm2 Hm3 He1 He2 He3 Hp Hc.
  assert (mime +:+ "/" +:+ ext +:+ ";" +:+ params +:+ "," +:+ content
          = (mime +:+ "/" +:+ ext +:+ ";" +:+ params) +:+ "," +:+ content) as ->.
  { by rewrite !append_assoc. }
  rewrite decode_base64_header_content by
    (rewrite ?occurrences_app; simpl; lia || done).
  destruct (b64decode content) as [d|e]; [|done]. simpl.
  assert (mime +:+ "/" +:+ ext +:+ ";" +:+ params
          = (mime +:+ "/" +:+ ext) +:+ String ";" params) as ->.
  { by rewrite !append_assoc. }
  rewrite split_app by (rewrite ?occurrences_app; simpl; lia).
  simpl.
  change (mime +:+ "/" +:+ ext) with (mime +:+ String "/" ext).
  rewrite split_app, (split_no_sep "/" ext) by done. done.
Qed.

Lemma decode_base64_data_url_witness :
  decode_base64 (fun _ => Val [Byte.x00]) "data:image/jpeg;base64,AA=="
  = Val ([Byte.x00], "jpeg").
Proof.
  exact (decode_base64_data_url (fun _ => Val [Byte.x00])
           "data:image" "jpeg" "base64" "AA=="
           eq_refl eq_refl eq_refl eq_refl eq_refl eq_refl eq_refl eq_refl).
Defined.

(** X15. A header without slash: after the content has been decoded, the
    extension lookup at line 110 raises [IndexError]. *)
Theorem decode_base64_header_without_slash (b64decode : string -> res bytes)
    (header content : string) decoded_data :
  occurrences "," header = 0%nat ->
  occurrences "/" header = 0%nat ->
  occurrences "," content = 0%nat ->
  b64decode content = Val decoded_data ->
  decode_base64 b64decode (header +:+ "," +:+ content) = Err IndexError.
Proof.
  intros Hh1 Hh2 Hc Hd.
  rewrite decode_base64_header_content by done.
  rewrite Hd. simpl.
  pose proof (split_nonempty ";" header) as Hne.
  pose proof (split_length ";" header) as Hlen.
  destruct (split ";" header) as [|first rest] eqn:Hs; [done|]. simpl.
  assert (occurrences "/" first = 0%nat) as Hf.
  { clear -Hs Hh2. revert first rest Hs.
    induction header as [|c h IH]; intros first rest Hs; simpl in *.
    - by injection Hs as <- <-.
    - destruct (Stdlib.Strings.Ascii.eqb c ";") eqn:Hc.
      + by injection Hs as <- <-.
      + pose proof (split_nonempty ";" h).
        destruct (split ";" h) as [|p ps] eqn:Hsh; [done|].
        injection Hs as <- <-. simpl.
        destruct (Stdlib.Strings.Ascii.eqb c "/"); simpl in *; [lia|].
        by eapply IH. }
  by rewrite (split_no_sep "/" first).
Qed.

Lemma decode_base64_header_without_slash_witness :
  decode_base64 (fun _ => Val [Byte.x00]) "png;base64,AA==" = Err IndexError.
Proof.
  exact (decode_base64_header_without_slash (fun _ => Val [Byte.x00])
           "png;base64" "AA==" [Byte.x00] eq_refl eq_refl eq_refl eq_refl).
Defined.

(** *** The encoder never emits a comma *)

Lemma b64_digit_not_comma n : Stdlib.Strings.Ascii.eqb (b64_digit n) "," = false.
Proof.
  unfold b64_digit. generalize (N.to_nat n) as k. intros k.
  destruct (nth_in_or_default k b64_alphabet "="%char) as [Hin| ->]; [|done].
  revert Hin. generalize (nth k b64_alphabet "="%char) as c. intros c Hin.
  apply Ascii.eqb_neq. intros ->. revert Hin. by vm_compute; intuition discriminate.
Qed.

Lemma occurrences_digit n s :
  occurrences "," (String (b64_digit n) s) = occurrences "," s.
Proof. simpl. by rewrite b64_digit_not_comma. Qed.

Lemma b64encode_no_comma data :
  occurrences "," (b64encode data) = 0%nat
  /\ (forall a, occurrences "," (b64encode (a :: data)) = 0%nat)
  /\ (forall a b, occurrences "," (b64encode (a :: b :: data)) = 0%nat).
Proof.
  induction data as [|c data (IH0 & IH1 & IH2)].
  - split; [done|]. split; intros; cbn [b64encode]; by rewrite !occurrences_digit.
  - split; [apply IH1|]. split; [intros a; apply IH2|].
    intros a b. cbn [b64encode]. by rewrite !occurrences_digit.
Qed.

Example b64encode_Man : b64encode [Byte.x4d; Byte.x61; Byte.x6e] = "TWFu".
Proof. reflexivity. Qed.

Example b64encode_Ma : b64encode [Byte.x4d; Byte.x61] = "TWE=".
Proof. reflexivity. Qed.

Example b64encode_M : b64encode [Byte.x4d] = "TQ==".
Proof. reflexivity. Qed.

(** X16. Decoding what [encode_base64] produced for a file applies the
    decoder to the base64 text of the file's bytes and reports the
    extension [png], whatever kind of file was encoded. *)
Theorem decode_of_encode_base64 (b64decode : string -> res bytes)
    (read_file : string -> res bytes) image_path data :
  read_file image_path = Val data ->
  exists url,
    encode_base64 read_file image_path = Val url
    /\ url = "data:image/png;base64," +:+ b64encode data
    /\ decode_base64 b64decode url
       = (decoded_data ← b64decode (b64encode data); Val (decoded_data, "png")).
Proof.
  intros Hread. unfold encode_base64. rewrite Hread. simpl.
  eexists. split; [done|]. split; [done|].
  change ("data:image/png;base64," +:+ b64encode data)
    with ("data:image/png;base64" +:+ "," +:+ b64encode data).
  rewrite decode_base64_header_content; [|done|apply b64encode_no_comma].
  by destruct (b64decode (b64encode data)).
Qed.

Lemma decode_of_encode_base64_witness :
  exists url,
    encode_base64 (fun _ => Val [Byte.x4d; Byte.x61; Byte.x6e]) "tmp/tmp-output.png"
      = Val url
    /\ url = "data:image/png;base64,TWFu".
Proof.
  destruct (decode_of_encode_base64 (fun _ => Val [])
              (fun _ => Val [Byte.x4d; Byte.x61; Byte.x6e]) "tmp/tmp-output.png"
              [Byte.x4d; Byte.x61; Byte.x6e] eq_refl) as (url & Hurl & Heq & _).
  exists url. split; [exact Hurl | exact Heq].
Defined.

(** ** ImageProcessor *)

Definition cxy_arrangements : list string :=
  ["cxy"; "cyx"; "xcy"; "xyc"; "ycx"; "yxc"].

Ltac elem_here :=
  solve [repeat first [apply list_elem_of_here | apply list_elem_of_further]].

Lemma insert_char_perm c l : insert_char c l ≡ₚ c :: l.
Proof.
  induction l as [|d ds IH]; simpl; [done|].
  destruct (nat_of_ascii c <? nat_of_ascii d)%nat; [done|].
  rewrite IH. apply Permutation_swap.
Qed.

Lemma sorted_chars_perm s : sorted_chars s ≡ₚ String.list_ascii_of_string s.
Proof.
  unfold sorted_chars. induction s as [|c rest IH]; simpl; [done|].
  rewrite insert_char_perm. by rewrite IH.
Qed.

(** [sorted(s) == ['c', 'x', 'y']] holds exactly for the six arrangements
    of the three letters. *)
Lemma sorted_chars_cxy s :
  sorted_chars s = ["c"; "x"; "y"]%char <-> s ∈ cxy_arrangements.
Proof.
  split.
  - intros Hs. pose proof (sorted_chars_perm s) as Hp. rewrite Hs in Hp.
    pose proof (Permutation_length Hp) as Hlen.
    destruct s as [|p [|q [|r [|? ?]]]]; try discriminate Hlen. simpl in Hp.
    assert (p ∈ ["c"; "x"; "y"]%char) as Hpin by (rewrite Hp; elem_here).
    assert (q ∈ ["c"; "x"; "y"]%char) as Hqin by (rewrite Hp; elem_here).
    assert (r ∈ ["c"; "x"; "y"]%char) as Hrin by (rewrite Hp; elem_here).
    assert (NoDup [p; q; r]) as Hnd.
    { rewrite <- Hp. apply (bool_decide_unpack _). by vm_compute. }
    apply NoDup_cons in Hnd as [Hpq Hnd]. apply NoDup_cons in Hnd as [Hqr _].
    unfold cxy_arrangements.
    repeat (apply elem_of_cons in Hpin as [->|Hpin]);
      try (by apply elem_of_nil in Hpin);
      repeat (apply elem_of_cons in Hqin as [->|Hqin]);
      try (by apply elem_of_nil in Hqin);
      repeat (apply elem_of_cons in Hrin as [->|Hrin]);
      try (by apply elem_of_nil in Hrin);
      try (exfalso; apply Hpq; elem_here);
      try (exfalso; apply Hqr; elem_here);
      elem_here.
  - unfold cxy_arrangements. intros Hin.
    repeat (apply elem_of_cons in Hin as [->|Hin]); try reflexivity.
    by apply elem_of_nil in Hin.
Qed.

Section ImageProcessorProperties.

Variable ndarray : Type.
Variable tensor : Type.
Variable ndarray_copy : ndarray -> res ndarray.
Variable np_transpose : ndarray -> list nat -> res ndarray.
Variable cv2_resize : ndarray -> option (Z * Z) -> res ndarray.
Variable cv2_cvtColor : ndarray -> color_code -> res ndarray.
Variable ndarray_astype : ndarray -> dtype -> res ndarray.
Variable np_load : string -> res ndarray.
Variable cv2_imread : string -> res (option ndarray).
Variable torch_from_numpy : ndarray -> res tensor.

Local Abbreviation resize_image :=
  (resize_image ndarray ndarray_copy np_transpose cv2_resize cv2_cvtColor ndarray_astype).
Local Abbreviation read_image := (read_image ndarray np_load cv2_imread).
Local Abbreviation get_torch_image :=
  (get_torch_image ndarray tensor ndarray_copy np_transpose cv2_resize cv2_cvtColor
     ndarray_astype np_load cv2_imread torch_from_numpy).

(** The assertion of line 127 fails as soon as the formats do not both
    sort to c, x, y. *)
Lemma resize_image_assertion_fails
    img img' input_format output_format output_dims_xy grayscale output_type :
  ndarray_copy img = Val img' ->
  bool_decide (sorted_chars (lower input_format) = sorted_chars (lower output_format))
    && bool_decide (sorted_chars (lower output_format) = ["c"; "x"; "y"]%char) = false ->
  resize_image (Some img) input_format output_format output_dims_xy grayscale output_type
    = Err AssertionError.
Proof.
  intros Hcopy Hbad. unfold Cellpose.resize_image. simpl. rewrite Hcopy.
  unfold mbind, res_bind. by rewrite Hbad.
Qed.

(** X17. Unless both formats, lower-cased, are arrangements of the letters
    c, x and y, [resize_image] fails its assertion (line 127) once the
    input has been copied, before any transposition or resizing. *)
Theorem resize_image_rejects_other_formats
    img img' input_format output_format output_dims_xy grayscale output_type :
  ndarray_copy img = Val img' ->
  lower input_format ∉ cxy_arrangements \/ lower output_format ∉ cxy_arrangements ->
  resize_image (Some img) input_format output_format output_dims_xy grayscale output_type
    = Err AssertionError.
Proof.
  intros Hcopy Hbad. apply (resize_image_assertion_fails img img'); [done|].
  apply not_true_is_false. intros Hok. apply andb_prop in Hok as [Heq Hout].
  apply bool_decide_eq_true in Heq, Hout.
  rewrite Hout in Heq. apply sorted_chars_cxy in Heq, Hout.
  by destruct Hbad.
Qed.

(** X18. [get_torch_image] never returns a tensor: it asks [resize_image]
    for the output format "bcyx", which the assertion of line 127 rejects.
    It raises [AssertionError] whenever the image was read and copied. *)
Theorem get_torch_image_never_returns input_image_path input_axes grayscale :
  exists e,
    get_torch_image input_image_path input_axes grayscale = Err e
    /\ (forall img img',
          read_image input_image_path = Val (Some img) ->
          ndarray_copy img = Val img' ->
          e = AssertionError)
    /\ (read_image input_image_path = Val None -> e = AttributeError).
Proof.
  unfold Cellpose.get_torch_image. unfold mbind at 1, res_bind at 1.
  destruct (read_image input_image_path) as [[img|]|e] eqn:Hread.
  - destruct (ndarray_copy img) as [img'|e] eqn:Hcopy.
    + rewrite (resize_image_assertion_fails img img');
        [|done|apply andb_false_intro2; by vm_compute].
      exists AssertionError. repeat split; done.
    + exists e. unfold Cellpose.resize_image. simpl. rewrite Hcopy. simpl.
      repeat split; [|done]. intros img0 img' [= <-]. congruence.
  - exists AttributeError. repeat split; done.
  - exists e. repeat split; done.
Qed.

(** X19. For formats that pass the assertion, the two index lists computed at
    lines 128 and 136 never fail and are permutations of the three axes:
    the first lists, for each of y, x, c, the input axis carrying that
    label; the second lists, for each label of the output format, its
    position in "yxc". [resize_image] is then: copy, transpose by the
    first list, resize, optionally to gray and back, cast, transpose by
    the second list. *)
Theorem resize_image_transposes
    img input_format output_format output_dims_xy grayscale output_type :
  lower input_format ∈ cxy_arrangements ->
  lower output_format ∈ cxy_arrangements ->
  exists to_yxc from_yxc,
    to_yxc ≡ₚ [0; 1; 2]%nat /\ from_yxc ≡ₚ [0; 1; 2]%nat
    /\ map (fun i => String.list_ascii_of_string (lower input_format) !! i) to_yxc
       = [Some "y"; Some "x"; Some "c"]%char
    /\ map (fun i => ["y"; "x"; "c"]%char !! i) from_yxc
       = map Some (String.list_ascii_of_string (lower output_format))
    /\ resize_image (Some img) input_format output_format output_dims_xy grayscale
         output_type
       = (rearranged ← ndarray_copy img;
          transposed ← np_transpose rearranged to_yxc;
          resized ← cv2_resize transposed output_dims_xy;
          resized ← (if grayscale then
                       gray ← cv2_cvtColor resized COLOR_RGB2GRAY;
                       cv2_cvtColor gray COLOR_GRAY2RGB
                     else Val resized);
          resized ← ndarray_astype resized output_type;
          np_transpose resized from_yxc).
Proof.
  intros Hin Hout. unfold cxy_arrangements in Hin, Hout.
  exists (match axes_of (lower input_format) ["y"; "x"; "c"]%char with
          | Val l => l
          | Err _ => []
          end),
         (match axes_of "yxc" (String.list_ascii_of_string (lower output_format)) with
          | Val l => l
          | Err _ => []
          end).
  unfold Cellpose.resize_image.
  repeat (apply elem_of_cons in Hin as [Hin|Hin]);
    try (by apply elem_of_nil in Hin);
    repeat (apply elem_of_cons in Hout as [Hout|Hout]);
    try (by apply elem_of_nil in Hout);
    rewrite Hin, Hout;
    (split; [apply (bool_decide_unpack _); by vm_compute|]);
    (split; [apply (bool_decide_unpack _); by vm_compute|]);
    (split; [reflexivity|]);
    (split; [reflexivity|]);
    unfold copy_of, mbind, res_bind;
    (destruct (ndarray_copy img) as [a0|]; [|reflexivity]);
    simpl;
    (destruct (np_transpose a0 _) as [a1|]; [|reflexivity]);
    (destruct (cv2_resize a1 output_dims_xy) as [a2|]; [|reflexivity]);
    (destruct grayscale;
     [ destruct (cv2_cvtColor a2 COLOR_RGB2GRAY) as [a3|]; [|reflexivity];
       destruct (cv2_cvtColor a3 COLOR_GRAY2RGB) as [a4|]; reflexivity
     | reflexivity ]).
Qed.

End ImageProcessorProperties.

Lemma resize_image_rejects_other_formats_witness :
  (lower "bcyx" ∉ cxy_arrangements)
  /\ resize_image unit (fun a => Val a) (fun a _ => Val a) (fun a _ => Val a)
       (fun a _ => Val a) (fun a _ => Val a)
       (Some tt) "cyx" "bcyx" None true float32
     = Err AssertionError.
Proof.
  assert (lower "bcyx" ∉ cxy_arrangements) as Hout.
  { apply (bool_decide_unpack _). by vm_compute. }
  split; [exact Hout|].
  exact (resize_image_rejects_other_formats unit (fun a => Val a) (fun a _ => Val a)
           (fun a _ => Val a) (fun a _ => Val a) (fun a _ => Val a)
           tt tt "cyx" "bcyx" None true float32 eq_refl (or_intror Hout)).
Defined.

Lemma resize_image_transposes_witness :
  lower "CYX" ∈ cxy_arrangements
  /\ lower "yxc" ∈ cxy_arrangements
  /\ exists to_yxc from_yxc : list nat,
       to_yxc ≡ₚ [0; 1; 2]%nat /\ from_yxc ≡ₚ [0; 1; 2]%nat.
Proof.
  assert (lower "CYX" ∈ cxy_arrangements) as Hin.
  { apply (bool_decide_unpack _). by vm_compute. }
  assert (lower "yxc" ∈ cxy_arrangements) as Hout.
  { apply (bool_decide_unpack _). by vm_compute. }
  split; [exact Hin|]. split; [exact Hout|].
  destruct (resize_image_transposes unit (fun a => Val a) (fun a _ => Val a)
              (fun a _ => Val a) (fun a _ => Val a) (fun a _ => Val a)
              tt "CYX" "yxc" (Some (512, 512)) false uint8 Hin Hout)
    as (to_yxc & from_yxc & H1 & H2 & _).
  exists to_yxc, from_yxc. split; [exact H1 | exact H2].
Defined.

End CellposeProperties.

(** * C10: get_schema overwrites the class docstring *)

(** [join] is the join of the standard library. *)
Lemma join_concat sep l : join sep l = String.concat sep l.
Proof.
  induction l as [|x l IH]; [done|].
  destruct l as [|y l]; [done|].
  change (x +:+ sep +:+ join sep (y :: l) = x +:+ sep +:+ String.concat sep (y :: l)).
  by rewrite IH.
Qed.

(** Splitting a join of newline-free lines at the newlines gives the lines
    back. *)
Lemma split_join_lines (l : list string) :
  l ≠ [] ->
  Forall (fun x => Cellpose.occurrences (Ascii.ascii_of_nat 10) x = 0%nat) l ->
  Cellpose.split (Ascii.ascii_of_nat 10) (join newline l) = l.
Proof.
  induction l as [|x l IH]; [done|]. intros _ Hall.
  inversion Hall as [|? ? Hx Hl]; subst.
  destruct l as [|y l].
  - by apply CellposeProperties.split_no_sep.
  - change (join newline (x :: y :: l))
      with (x +:+ String (Ascii.ascii_of_nat 10) (join newline (y :: l))).
    rewrite CellposeProperties.split_app by done. f_equal. by apply IH.
Qed.

(** C10. Whatever the class docstring was before, after a call of
    [get_schema] it is the fixed header, a newline, and the lines
    ["- name: description"] of that call's channels joined by newlines;
    when no name or description contains a newline, splitting it at the
    newlines gives the header and exactly one such line per channel, in
    order. A later call replaces it: after a call with other channels and
    then this call the docstring is again this call's. If the library
    embeds in a schema the docstring the class has when the schema is
    asked for (regenerated per invocation, not cached), then the schema
    this call returns, and any schema produced afterwards, carries this
    call's enumeration. *)
Theorem get_schema_overwrites_docstring (Schema Lib : Type)
    (schema_method : class_state Lib -> Schema * Lib) (description : Schema -> string)
    (channels channels0 : list Manifest.collection) (c : class_state Lib) :
  let header :=
    "Searching knowledge base for relevant documents. The available documentations are:" in
  let line := fun channel =>
    "- " +:+ Manifest.name channel +:+ ": " +:+ Manifest.description channel in
  let doc := header +:+ newline +:+ String.concat newline (map line channels) in
  let first := get_schema Schema Lib schema_method channels c in
  let later :=
    get_schema Schema Lib schema_method channels
      (get_schema Schema Lib schema_method channels0 c).2 in
  class_doc first.2 = doc
  /\ class_doc later.2 = doc
  /\ (channels ≠ [] ->
      Forall (fun channel =>
                Cellpose.occurrences (Ascii.ascii_of_nat 10) (line channel) = 0%nat)
        channels ->
      Cellpose.split (Ascii.ascii_of_nat 10) doc = header :: map line channels)
  /\ ((forall c', description (schema_method c').1 = class_doc c') ->
      description first.1 = doc
      /\ description later.1 = doc
      /\ description (schema_method later.2).1 = doc).
Proof.
  intros header line doc first later.
  assert (forall c0, class_doc (get_schema Schema Lib schema_method channels c0).2 = doc)
    as Hdoc.
  { intros c0. unfold get_schema. destruct (schema_method _) as [s p]. simpl.
    subst doc header. by rewrite join_concat. }
  assert (forall c0, (forall c', description (schema_method c').1 = class_doc c') ->
            description (get_schema Schema Lib schema_method channels c0).1 = doc)
    as Hschema.
  { intros c0 Hlib. unfold get_schema.
    destruct (schema_method _) as [s p] eqn:Hs. simpl.
    change s with (s, p).1. rewrite <- Hs, Hlib. simpl.
    subst doc header. by rewrite join_concat. }
  split; [apply Hdoc|]. split; [apply Hdoc|]. split.
  - intros Hne Hlines. subst doc.
    change (header +:+ newline +:+ String.concat newline (map line channels))
      with (header +:+ String (Ascii.ascii_of_nat 10)
                         (String.concat newline (map line channels))).
    rewrite CellposeProperties.split_app by reflexivity. f_equal.
    rewrite <- join_concat. apply split_join_lines.
    + by destruct channels.
    + clear -Hlines. induction Hlines; simpl; by constructor.
  - intros Hlib. split; [by apply Hschema|]. split; [by apply Hschema|].
    rewrite Hlib. apply Hdoc.
Qed.

Lemma get_schema_overwrites_docstring_witness :
  (forall c', schema_description (regenerated_schema c').1 = class_doc c')
  /\ schema_description
       (get_schema request_schema unit regenerated_schema
          [Manifest.mk "B" "Collection B" "second collection" None]
          (get_schema request_schema unit regenerated_schema
             [Manifest.mk "A" "Collection A" "first collection" None]
             (mkClass "Searching knowledge base for relevant documents." tt)).2).1
     = "Searching knowledge base for relevant documents. The available documentations are:"
         +:+ newline +:+ "- Collection B: second collection".
Proof.
  assert (forall c', schema_description (regenerated_schema c').1 = class_doc c')
    as Hlib by reflexivity.
  split; [exact Hlib|].
  destruct (get_schema_overwrites_docstring request_schema unit regenerated_schema
              schema_description
              [Manifest.mk "B" "Collection B" "second collection" None]
              [Manifest.mk "A" "Collection A" "first collection" None]
              (mkClass "Searching knowledge base for relevant documents." tt))
    as (_ & _ & _ & Hschema).
  exact (proj1 (proj2 (Hschema Hlib))).
Defined.
